(** * Content fetch and normalisation core of the blog (src/lib/notion/index.ts)

    A shallow embedding of the data-access layer: the retry wrapper, the
    development-mode response cache, the collection and single-item queries,
    the block minimizer and the list grouping pass, with the properties the
    specification states about them. *)

From Stdlib Require Import ZArith QArith Qminmax String Ascii List Bool Lia.
From Stdlib Require Import Sorted Permutation.
From stdpp Require Import base option list gmap strings.

Local Open Scope string_scope.
Local Open Scope Z_scope.
Set Warnings "-register-all".

(** ** JavaScript values

    The minimizer and the error classifier are written against [any]: they
    read properties by name from whatever the service client hands them.  The
    embedding therefore works on JSON trees.  Numbers are the integers (the
    code only ever compares a status or a length); an object is the ordered
    list of its own properties, the first binding of a key being the live one. *)
Module Js.

Inductive value : Type :=
| VUndef
| VNull
| VBool (b : bool)
| VNum (n : Z)
| VStr (s : string)
| VArr (items : list value)
| VObj (fields : list (string * value)).

(** Outcome of running a piece of the program: a result, a thrown value, or
    [Unmodelled] when the run leaves the fragment of JavaScript that the
    embedding covers (an inherited prototype member, a numeric coercion of a
    non-number, a key that is not a string). *)
Inductive res (A : Type) : Type :=
| Ok (a : A)
| Throw (e : value)
| Unmodelled.
Arguments Ok {A} a.
Arguments Throw {A} e.
Arguments Unmodelled {A}.

Definition bind {A B : Type} (m : res A) (f : A -> res B) : res B :=
  match m with
  | Ok a => f a
  | Throw e => Throw e
  | Unmodelled => Unmodelled
  end.

Notation "'let*' x ':=' m 'in' k" := (bind m (fun x => k))
  (at level 10, x name, m at level 100, k at level 200).

(** [array.map(f)] for an [f] that may throw: left to right, first failure wins. *)
Fixpoint mapM {A B : Type} (f : A -> res B) (l : list A) : res (list B) :=
  match l with
  | [] => Ok []
  | x :: l' => let* y := f x in let* ys := mapM f l' in Ok (y :: ys)
  end.

(** The value a failed property read or method call throws. *)
Definition TypeError : value := VObj [("name", VStr "TypeError")].

(** ToBoolean. *)
Definition truthy (v : value) : bool :=
  match v with
  | VUndef | VNull => false
  | VBool b => b
  | VNum n => negb (n =? 0)
  | VStr s => negb (String.eqb s "")
  | VArr _ | VObj _ => true
  end.

(** [v == null]. *)
Definition nullish (v : value) : bool :=
  match v with
  | VUndef | VNull => true
  | _ => false
  end.

(** [v === "s"] and [v === n] against a literal. *)
Definition is_str (v : value) (s : string) : bool :=
  match v with
  | VStr s' => String.eqb s' s
  | _ => false
  end.

Definition is_num (v : value) (n : Z) : bool :=
  match v with
  | VNum n' => n' =? n
  | _ => false
  end.

(** [a || b] and [a && b], with the right operand evaluated on demand. *)
Definition jsor (a : res value) (b : res value) : res value :=
  let* x := a in if truthy x then Ok x else b.

Definition jsand (a : res value) (b : res value) : res value :=
  let* x := a in if truthy x then b else Ok x.

(** Own-property lookup in an object's field list. *)
Fixpoint own (k : string) (fields : list (string * value)) : option value :=
  match fields with
  | [] => None
  | (k', v) :: rest => if String.eqb k' k then Some v else own k rest
  end.

Definition mem (k : string) (l : list string) : bool :=
  existsb (String.eqb k) l.

(** Members every object inherits from [Object.prototype]; reading one of
    them yields a function (or the prototype itself), which a JSON tree cannot
    hold. *)
Definition object_proto : list string :=
  ["constructor"; "__proto__"; "hasOwnProperty"; "isPrototypeOf";
   "propertyIsEnumerable"; "toLocaleString"; "toString"; "valueOf";
   "__defineGetter__"; "__defineSetter__"; "__lookupGetter__";
   "__lookupSetter__"].

Definition array_proto : list string :=
  ["at"; "concat"; "copyWithin"; "entries"; "every"; "fill"; "filter";
   "find"; "findIndex"; "findLast"; "findLastIndex"; "flat"; "flatMap";
   "forEach"; "includes"; "indexOf"; "join"; "keys"; "lastIndexOf"; "map";
   "pop"; "push"; "reduce"; "reduceRight"; "reverse"; "shift"; "slice";
   "some"; "sort"; "splice"; "toReversed"; "toSorted"; "toSpliced";
   "unshift"; "values"; "with"].

Definition string_proto : list string :=
  ["anchor"; "at"; "big"; "blink"; "bold"; "charAt"; "charCodeAt";
   "codePointAt"; "concat"; "endsWith"; "fixed"; "fontcolor"; "fontsize";
   "includes"; "indexOf"; "isWellFormed"; "italics"; "lastIndexOf"; "link";
   "localeCompare"; "match"; "matchAll"; "normalize"; "padEnd"; "padStart";
   "repeat"; "replace"; "replaceAll"; "search"; "slice"; "small"; "split";
   "startsWith"; "strike"; "sub"; "substr"; "substring"; "sup";
   "toLocaleLowerCase"; "toLocaleUpperCase"; "toLowerCase"; "toUpperCase";
   "toWellFormed"; "trim"; "trimEnd"; "trimLeft"; "trimRight"; "trimStart"].

Definition number_proto : list string :=
  ["toExponential"; "toFixed"; "toPrecision"].

(** Keys that may address an element of an array or a character of a string. *)
Definition index_like (k : string) : bool :=
  match k with
  | String c _ => (("0" <=? c) && (c <=? "9"))%char
  | EmptyString => false
  end.

(** [v.k] / [v[k]].  Reading from [undefined] or [null] throws; an object
    answers with its own property, [undefined] when it has none; arrays and
    strings also answer [length]. *)
Definition get (v : value) (k : string) : res value :=
  match v with
  | VUndef | VNull => Throw TypeError
  | VObj fields =>
      match own k fields with
      | Some x => Ok x
      | None => if mem k object_proto then Unmodelled else Ok VUndef
      end
  | VArr items =>
      if String.eqb k "length" then Ok (VNum (Z.of_nat (List.length items)))
      else if mem k array_proto || mem k object_proto || index_like k
           then Unmodelled else Ok VUndef
  | VStr s =>
      if String.eqb k "length" then Ok (VNum (Z.of_nat (String.length s)))
      else if mem k string_proto || mem k object_proto || index_like k
           then Unmodelled else Ok VUndef
  | VNum _ =>
      if mem k number_proto || mem k object_proto then Unmodelled else Ok VUndef
  | VBool _ =>
      if mem k object_proto then Unmodelled else Ok VUndef
  end.

(** Whether an object has an own property [k]. *)
Definition has_key (v : value) (k : string) : bool :=
  match v with
  | VObj fields => match own k fields with Some _ => true | None => false end
  | _ => false
  end.

(** Whether [v.k] reads as a truthy value. *)
Definition flag (v : value) (k : string) : bool :=
  match get v k with
  | Ok x => truthy x
  | _ => false
  end.

(** [v?.k]. *)
Definition get_opt (v : value) (k : string) : res value :=
  if nullish v then Ok VUndef else get v k.

(** [o[k] = v] on an object literal: overwrite in place or append. *)
Fixpoint put (k : string) (v : value) (fields : list (string * value))
  : list (string * value) :=
  match fields with
  | [] => [(k, v)]
  | (k', v') :: rest =>
      if String.eqb k' k then (k, v) :: rest else (k', v') :: put k v rest
  end.

(** Assigning to [__proto__] runs the inherited setter instead of creating a
    property. *)
Definition set (k : string) (v : value) (fields : list (string * value))
  : res (list (string * value)) :=
  if String.eqb k "__proto__" then Unmodelled else Ok (put k v fields).

(** ToPropertyKey, for a computed member access. *)
Definition to_key (v : value) : res string :=
  match v with
  | VStr s => Ok s
  | VUndef => Ok "undefined"
  | VNull => Ok "null"
  | VBool true => Ok "true"
  | VBool false => Ok "false"
  | VNum _ | VArr _ | VObj _ => Unmodelled
  end.

(** [v > 0] for the value of a [length] read. *)
Definition gt0 (v : value) : res bool :=
  match v with
  | VNum n => Ok (0 <? n)
  | VUndef | VNull => Ok false
  | VBool b => Ok b
  | VStr _ | VArr _ | VObj _ => Unmodelled
  end.

(** [c && c.length > 0], the guard in front of every optional child or
    caption list. *)
Definition nonempty (c : value) : res bool :=
  if truthy c then let* len := get c "length" in gt0 len else Ok false.

(** Nesting depth of a tree. *)
Fixpoint depth (v : value) : nat :=
  match v with
  | VArr items => S (fold_right (fun x acc => Nat.max (depth x) acc) 0%nat items)
  | VObj fields =>
      S (fold_right (fun p acc => Nat.max (depth (snd p)) acc) 0%nat fields)
  | _ => 0%nat
  end.

End Js.

(** ** Block minimizer (minimizeRichText, minimizeBlock) *)
Module Minimizer.
Import Js.

(** [array.map(f)]: in a JSON tree only an array has a callable [map]. *)
Definition js_map (f : value -> res value) (v : value) : res value :=
  match v with
  | VArr items => let* items' := mapM f items in Ok (VArr items')
  | _ => Throw TypeError
  end.

(** [annotations && (annotations.bold || annotations.italic || ... ||
     (annotations.color && annotations.color !== 'default'))] *)
Definition hasFormatting (annotations : value) : res value :=
  jsand (Ok annotations)
    (jsor (get annotations "bold")
    (jsor (get annotations "italic")
    (jsor (get annotations "strikethrough")
    (jsor (get annotations "underline")
    (jsor (get annotations "code")
    (jsand (get annotations "color")
           (let* color := get annotations "color" in
            Ok (VBool (negb (is_str color "default")))))))))).

(** The object literal assigned to [minimized.annotations]. *)
Definition annotations_literal (annotations : value) : res value :=
  let* bold := jsor (get annotations "bold") (Ok (VBool false)) in
  let* italic := jsor (get annotations "italic") (Ok (VBool false)) in
  let* strikethrough := jsor (get annotations "strikethrough") (Ok (VBool false)) in
  let* underline := jsor (get annotations "underline") (Ok (VBool false)) in
  let* code := jsor (get annotations "code") (Ok (VBool false)) in
  let* color := jsor (get annotations "color") (Ok (VStr "default")) in
  Ok (VObj [("bold", bold); ("italic", italic);
            ("strikethrough", strikethrough); ("underline", underline);
            ("code", code); ("color", color)]).

(** The object literal assigned to [minimized.text]:
    [{ content: textObj.content || '',
       ...(textObj.link ? { link: { url: textObj.link.url } } : {}) }] *)
Definition text_literal (textObj : value) : res value :=
  let* content := jsor (get textObj "content") (Ok (VStr "")) in
  let* link := get textObj "link" in
  let* spread :=
    (if truthy link then
       let* url := get link "url" in Ok [("link", VObj [("url", url)])]
     else Ok []) in
  Ok (VObj (("content", content) :: spread)).

(** The callback of [richText.map] in minimizeRichText: one span. *)
Definition minimizeSpan (text : value) : res value :=
  let* plain_text := get text "plain_text" in
  let* annotations := get text "annotations" in
  let* textObj := get text "text" in
  let* href := get text "href" in
  let* hasFormatting := hasFormatting annotations in
  let* type := jsor (get text "type") (Ok (VStr "text")) in
  let minimized := [("plain_text", plain_text); ("type", type)] in
  let* minimized :=
    (if truthy hasFormatting then
       let* literal := annotations_literal annotations in
       set "annotations" literal minimized
     else Ok minimized) in
  let* minimized :=
    (if truthy textObj then
       let* keep := jsor (get textObj "content") (get textObj "link") in
       if truthy keep then
         let* literal := text_literal textObj in
         set "text" literal minimized
       else Ok minimized
     else Ok minimized) in
  let* minimized :=
    (if truthy href then set "href" href minimized else Ok minimized) in
  Ok (VObj minimized).

(** [if (!richText || !Array.isArray(richText)) return richText], then the map. *)
Definition minimizeRichText (richText : value) : res value :=
  match richText with
  | VArr items => let* items' := mapM minimizeSpan items in Ok (VArr items')
  | _ => Ok richText
  end.

Section Body.
(** The recursive occurrence of minimizeBlock inside its own body. *)
Variable self : value -> res value.

(** [...(blockData.children && blockData.children.length > 0
          ? { children: blockData.children.map(minimizeBlock) } : {})] *)
Definition spread_children (blockData : value) : res (list (string * value)) :=
  let* children := get blockData "children" in
  let* some := nonempty children in
  if some then
    let* children' := js_map self children in Ok [("children", children')]
  else Ok [].

(** [...(blockData.caption && blockData.caption.length > 0
          ? { caption: minimizeRichText(blockData.caption) } : {})] *)
Definition spread_caption (blockData : value) : res (list (string * value)) :=
  let* caption := get blockData "caption" in
  let* some := nonempty caption in
  if some then
    let* caption' := minimizeRichText caption in Ok [("caption", caption')]
  else Ok [].

(** [{ text: minimizeRichText(blockData.text), ...children }], the payload of
    the paragraph, heading, quote and list-item arms and of the fallback. *)
Definition text_payload (blockData : value) : res value :=
  let* text := get blockData "text" in
  let* text' := minimizeRichText text in
  let* children := spread_children blockData in
  Ok (VObj (("text", text') :: children)).

(** The if / else-if chain over [blockType]: the value stored under
    [minimized[type]]. *)
Definition payload (blockType blockData : value) : res value :=
  if is_str blockType "paragraph" || is_str blockType "heading_1"
     || is_str blockType "heading_2" || is_str blockType "heading_3" then
    text_payload blockData
  else if is_str blockType "quote" then
    text_payload blockData
  else if is_str blockType "bulleted_list_item"
          || is_str blockType "numbered_list_item" then
    text_payload blockData
  else if is_str blockType "callout" then
    let* text := get blockData "text" in
    let* text' := minimizeRichText text in
    let* icon := get blockData "icon" in
    let* icon' :=
      (if truthy icon then
         let* emoji := get icon "emoji" in
         let* itype := get icon "type" in
         Ok (VObj [("emoji", emoji); ("type", itype)])
       else Ok VUndef) in
    let* children := spread_children blockData in
    Ok (VObj (("text", text') :: ("icon", icon') :: children))
  else if is_str blockType "image" || is_str blockType "video" then
    let* kind := get blockData "type" in
    let* source :=
      (if is_str kind "external" then
         let* external := get blockData "external" in
         let* url := get external "url" in
         Ok [("external", VObj [("url", url)])]
       else
         let* file := get blockData "file" in
         let* url := get file "url" in
         let* expiry_time := get file "expiry_time" in
         Ok [("file", VObj [("url", url); ("expiry_time", expiry_time)])]) in
    let* caption := spread_caption blockData in
    Ok (VObj (("type", kind) :: source ++ caption))
  else if is_str blockType "code" then
    let* text := get blockData "text" in
    let* text' := (if truthy text then minimizeRichText text else Ok (VArr [])) in
    let* language := jsor (get blockData "language") (Ok (VStr "plain text")) in
    let* caption := spread_caption blockData in
    Ok (VObj (("text", text') :: ("language", language) :: caption))
  else if is_str blockType "divider" then
    Ok (VObj [])
  else if is_str blockType "embed" then
    let* url := get blockData "url" in
    let* caption := spread_caption blockData in
    Ok (VObj (("url", url) :: caption))
  else if is_str blockType "table" then
    let* has_column_header :=
      jsor (get blockData "has_column_header") (Ok (VBool false)) in
    let* has_row_header :=
      jsor (get blockData "has_row_header") (Ok (VBool false)) in
    let* children := spread_children blockData in
    Ok (VObj (("has_column_header", has_column_header)
              :: ("has_row_header", has_row_header) :: children))
  else if is_str blockType "table_row" then
    let* cells := get blockData "cells" in
    let* cells' :=
      (if truthy cells then js_map minimizeRichText cells else Ok (VArr [])) in
    Ok (VObj [("cells", cells')])
  else if is_str blockType "column_list" then
    let* children := get blockData "children" in
    let* children' :=
      (if truthy children then js_map self children else Ok (VArr [])) in
    Ok (VObj [("children", children')])
  else if is_str blockType "column" then
    let* column := get blockData "column" in
    if truthy column then
      let* column' := js_map self column in Ok (VObj [("column", column')])
    else
      let* children := get blockData "children" in
      if truthy children then
        let* children' := js_map self children in
        Ok (VObj [("children", children')])
      else Ok (VObj [])
  else
    let* hasText := jsand (Ok blockData) (get blockData "text") in
    if truthy hasText then text_payload blockData
    else if truthy blockData then Ok blockData
    else Ok (VObj []).

Definition minimizeBlock_body (block : value) : res value :=
  let* id := get block "id" in
  let* type := get block "type" in
  let* has_children := get block "has_children" in
  let* key := to_key type in
  let* blockData := get block key in
  let minimized := [("id", id); ("type", type); ("has_children", has_children)] in
  let* payload := payload type blockData in
  let* minimized := set key payload minimized in
  Ok (VObj minimized).

End Body.

(** minimizeBlock recurses into the children found under [block[type]]: the
    recursion goes down the nesting of the tree, one level per call. *)
Fixpoint minimizeBlock_at (level : nat) (block : value) : res value :=
  match level with
  | O => Unmodelled
  | S level' => minimizeBlock_body (minimizeBlock_at level') block
  end.

Definition minimizeBlock (block : value) : res value :=
  minimizeBlock_at (S (depth block)) block.

(** *** What the specification says of a minimized span

    The statement of the rich-text rule, in the words of the specification:
    an annotation set counts as formatting when one of the five style flags is
    set or the colour is not the default one. *)
Definition styled (annotations : value) : bool :=
  flag annotations "bold" || flag annotations "italic"
  || flag annotations "strikethrough" || flag annotations "underline"
  || flag annotations "code"
  || match get annotations "color" with
     | Ok color => truthy color && negb (is_str color "default")
     | _ => false
     end.

(** The text sub-object is worth keeping when it has content or a link. *)
Definition has_content_or_link (textObj : value) : bool :=
  truthy textObj && (flag textObj "content" || flag textObj "link").

(** [out] is span [text] minimized: plain text and type tag kept, annotations
    present exactly for a styled span, the text sub-object present exactly
    when it has content or a link (with a [link] key exactly when there is a
    link), [href] present exactly when it is set. *)
Definition span_minimized (text out : value) : Prop :=
  exists annotations textObj href,
    get text "annotations" = Ok annotations
    /\ get text "text" = Ok textObj
    /\ get text "href" = Ok href
    /\ get out "plain_text" = get text "plain_text"
    /\ get out "type" = jsor (get text "type") (Ok (VStr "text"))
    /\ has_key out "annotations" = styled annotations
    /\ has_key out "text" = has_content_or_link textObj
    /\ (has_content_or_link textObj = true ->
        exists literal,
          get out "text" = Ok literal
          /\ get literal "content" = jsor (get textObj "content") (Ok (VStr ""))
          /\ has_key literal "link" = flag textObj "link")
    /\ has_key out "href" = truthy href
    /\ (truthy href = true -> get out "href" = Ok href).

(** A span without any formatting, as the service sends it. *)
Definition plain_annotations : value :=
  VObj [("bold", VBool false); ("italic", VBool false);
        ("strikethrough", VBool false); ("underline", VBool false);
        ("code", VBool false); ("color", VStr "default")].

End Minimizer.

(** ** Resilient call wrapper (isRetryableError, withTimeout, withRetry) *)
Module Retry.
Import Js.

Definition MAX_RETRIES : nat := 5.
Definition INITIAL_RETRY_DELAY : Z := 1000.
Definition MAX_RETRY_DELAY : Z := 30000.
Definition TIMEOUT_MS : Z := 30000.

(** [\d] and [\s] of the status pattern, on the code units of a message
    (160 is the non-breaking space). *)
Definition is_digit (c : ascii) : bool := (("0" <=? c) && (c <=? "9"))%char.

Definition is_space (c : ascii) : bool :=
  let n := nat_of_ascii c in
  ((9 <=? n) && (n <=? 13) || (n =? 32) || (n =? 160))%nat.

Fixpoint skip_spaces (s : string) : string :=
  match s with
  | String c s' => if is_space c then skip_spaces s' else s
  | EmptyString => s
  end.

Fixpoint take_digits (s : string) : string :=
  match s with
  | String c s' => if is_digit c then String c (take_digits s') else EmptyString
  | EmptyString => EmptyString
  end.

Fixpoint drop_prefix (p s : string) : option string :=
  match p, s with
  | EmptyString, _ => Some s
  | String a p', String b s' => if Ascii.eqb a b then drop_prefix p' s' else None
  | String _ _, EmptyString => None
  end.

(** [message.match(/status:\s*(\d+)/)?.[1]]: the first capture of the
    leftmost match, a string of digits. *)
Fixpoint match_status (message : string) : option string :=
  let here :=
    match drop_prefix "status:" message with
    | Some rest =>
        let digits := take_digits (skip_spaces rest) in
        if String.eqb digits "" then None else Some digits
    | None => None
    end in
  match here with
  | Some digits => Some digits
  | None =>
      match message with
      | String _ rest => match_status rest
      | EmptyString => None
      end
  end.

(** [message.includes(needle)] on a string. *)
Fixpoint includes (needle s : string) : bool :=
  String.prefix needle s ||
  match s with
  | String _ s' => includes needle s'
  | EmptyString => false
  end.

(** [error?.message?.match(/status:\s*(\d+)/)?.[1]] *)
Definition status_from_message (error : value) : res value :=
  let* message := get_opt error "message" in
  match message with
  | VUndef | VNull => Ok VUndef
  | VStr m =>
      match match_status m with
      | Some digits => Ok (VStr digits)
      | None => Ok VUndef
      end
  | _ => Throw TypeError
  end.

(** [error?.message?.includes(needle)] *)
Definition message_includes (error : value) (needle : string) : res value :=
  let* message := get_opt error "message" in
  match message with
  | VUndef | VNull => Ok VUndef
  | VStr m => Ok (VBool (includes needle m))
  | VArr items => Ok (VBool (existsb (fun x => is_str x needle) items))
  | _ => Throw TypeError
  end.

Definition isRetryableError (error : value) : res bool :=
  let* code := get_opt error "code" in
  if is_str code "notionhq_client_response_error" then
    let* status := jsor (get_opt error "status") (status_from_message error) in
    Ok (is_num status 502 || is_num status 503 || is_num status 504
        || is_num status 429)
  else if is_str code "ECONNRESET" || is_str code "ETIMEDOUT"
          || is_str code "ENOTFOUND" then
    Ok true
  else
    let* mentions :=
      jsor (message_includes error "timeout") (message_includes error "TIMEOUT") in
    if truthy mentions then Ok true else Ok false.

(** How one invocation of the operation ends: its promise resolves, rejects
    (or the call throws), or is still pending when the timer fires. *)
Inductive settled : Type :=
| Resolves (v : value)
| Rejects (e : value)
| Hangs.

(** [new Error(`Operation timed out after ${timeoutMs}ms`)] *)
Definition timeout_error : value :=
  VObj [("message", VStr "Operation timed out after 30000ms")].

(** [Promise.race] of the operation against the 30 s timer. *)
Definition withTimeout (s : settled) : res value :=
  match s with
  | Resolves v => Ok v
  | Rejects e => Throw e
  | Hangs => Throw timeout_error
  end.

(** What a run of withRetry leaves behind: its outcome, how many times the
    operation was invoked, and the delays slept between attempts (ms). *)
Record run : Type := {
  result : res value;
  invocations : nat;
  sleeps : list Q;
}.

Definition finished (r : res value) : run :=
  {| result := r; invocations := 1; sleeps := [] |}.

Section Loop.
(** [fn k] is how the k-th invocation (from 0) of the operation ends;
    [random k] is the draw of [Math.random()] after it failed, in [0, 1). *)
Variable fn : nat -> settled.
Variable random : nat -> Q.

(** The [for] loop from [attempt], with [remaining] iterations left before
    [attempt <= MAX_RETRIES] fails. *)
Fixpoint retry_loop (remaining attempt : nat) (delay : Z) (lastError : value)
  : run :=
  match remaining with
  | O => {| result := Throw lastError; invocations := 0; sleeps := [] |}
  | S remaining' =>
      match withTimeout (fn attempt) with
      | Ok v => finished (Ok v)
      | Unmodelled => finished Unmodelled
      | Throw error =>
          match isRetryableError error with
          | Throw e => finished (Throw e)
          | Unmodelled => finished Unmodelled
          | Ok retryable =>
              if negb retryable || (attempt =? MAX_RETRIES)%nat then
                finished (Throw error)
              else
                let jitter := (random attempt * (3 # 10) * inject_Z delay)%Q in
                let backoffDelay :=
                  Qmin (inject_Z delay + jitter) (inject_Z MAX_RETRY_DELAY) in
                let rest := retry_loop remaining' (S attempt) (delay * 2) error in
                {| result := result rest;
                   invocations := S (invocations rest);
                   sleeps := backoffDelay :: sleeps rest |}
          end
      end
  end.

Definition withRetry : run :=
  retry_loop (S MAX_RETRIES) 0 INITIAL_RETRY_DELAY VUndef.

End Loop.

End Retry.

(** ** Posts, the response cache and the queries *)
Module Posts.
Import Js.

(** Modelled from the spec: the [PostProps] type of [@lib/types], which is not
    part of the sources at hand.  A post record carries the six properties of
    the blog's collection schema: the publish date (possibly null), the
    description, slug and title as rich text, the authors and the published
    checkbox. *)
Record RichText : Type := { plain_text : string }.

Record DateValue : Type := { start : string }.

Record Properties : Type := {
  Date_date : option DateValue;
  Description_rich_text : list RichText;
  Slug_rich_text : list RichText;
  Page_title : list RichText;
  Authors_people : list value;
  Published_checkbox : bool;
}.

Record PostProps : Type := {
  id : string;
  properties : Properties;
}.

(** *** Response cache (getCached, setCache) *)

Definition CACHE_TTL_MS : Z := 60 * 1000.

(** What callers store: a post list (getDatabase), one post or null
    (getPostBySlug, getPage) or a block list (getBlocks).  The map itself is
    [Map<string, CacheEntry<any>>]. *)
Inductive cached : Type :=
| CNull
| CPost (post : PostProps)
| CPosts (posts : list PostProps)
| CBlocks (blocks : list value).

Record CacheEntry : Type := {
  data : cached;
  timestamp : Z;
}.

(** A request that reaches the content service, i.e. one call of withRetry
    around a client method. *)
Inductive Request : Type :=
| DatabasesQuery (database_id : string) (start_cursor : option string)
| DatabasesQueryBySlug (database_id : string) (slug : string)
| PagesRetrieve (page_id : string)
| BlocksChildrenList (block_id : string) (start_cursor : option string).

(** The process as the queries see it: the cache map, the wall clock read by
    [Date.now()] (ms) and the requests sent so far. *)
Record World : Type := {
  cache : gmap string CacheEntry;
  clock : Z;
  requests : list Request;
}.

Record QueryResponse : Type := {
  results : list PostProps;
  next_cursor : option string;
}.

Record BlocksResponse : Type := {
  block_results : list value;
  block_next_cursor : option string;
}.

(** The content service behind withRetry.  A reply may depend on how many
    requests came before it; [took] is the time the call kept the caller
    waiting. *)
Record Service : Type := {
  databases_query : nat -> string -> option string -> res QueryResponse;
  databases_query_by_slug : nat -> string -> string -> res QueryResponse;
  pages_retrieve : nat -> string -> res PostProps;
  blocks_children_list : nat -> string -> option string -> res BlocksResponse;
  took : nat -> Z;
}.

(** [x != null] on a nullable field. *)
Definition not_null {A : Type} (x : option A) : bool :=
  match x with
  | Some _ => true
  | None => false
  end.

Definition cached_truthy (c : cached) : bool :=
  match c with
  | CNull => false
  | _ => true
  end.

Section Queries.
(** [process.env.NODE_ENV === 'development'] *)
Variable isDev : bool.
Variable service : Service.
(** [new Date(s).getTime()] for the ISO 8601 strings the service sends. *)
Variable getTime : string -> Z.

Definition getCached (key : string) (w : World) : cached * World :=
  if negb isDev then (CNull, w)
  else
    match cache w !! key with
    | None => (CNull, w)
    | Some entry =>
        if CACHE_TTL_MS <? clock w - timestamp entry then
          (CNull, {| cache := delete key (cache w);
                     clock := clock w; requests := requests w |})
        else (data entry, w)
    end.

Definition setCache (key : string) (d : cached) (w : World) : World :=
  if negb isDev then w
  else {| cache := <[key := {| data := d; timestamp := clock w |}]> (cache w);
          clock := clock w; requests := requests w |}.

(** One awaited [withRetry(() => notion...)]: the request is logged and the
    clock moves on by the time the call took. *)
Definition sent (r : Request) (w : World) : World :=
  {| cache := cache w;
     clock := clock w + took service (length (requests w));
     requests := (requests w ++ [r])%list |}.

(** *** Collection query (getDatabase) *)

(** The [do ... while (startCursor != null)] loop.  A listing that never
    reports a null cursor has no result. *)
Fixpoint paginate (fuel : nat) (databaseId : string) (startCursor : option string)
  (acc : list PostProps) (w : World) : res (list PostProps) * World :=
  match fuel with
  | O => (Unmodelled, w)
  | S fuel' =>
      let reply := databases_query service (length (requests w)) databaseId startCursor in
      let w := sent (DatabasesQuery databaseId startCursor) w in
      match reply with
      | Ok response =>
          let acc := (acc ++ results response)%list in
          match next_cursor response with
          | Some cursor => paginate fuel' databaseId (Some cursor) acc w
          | None => (Ok acc, w)
          end
      | Throw e => (Throw e, w)
      | Unmodelled => (Unmodelled, w)
      end
  end.

(** The predicate handed to [results.filter]. *)
Definition keep (includeUnpublished : bool) (r : PostProps) : bool :=
  not_null (Date_date (properties r))
  && (0 <? length (Description_rich_text (properties r)))%nat
  && (0 <? length (Slug_rich_text (properties r)))%nat
  && (0 <? length (Page_title (properties r)))%nat
  && (0 <? length (Authors_people (properties r)))%nat
  && (includeUnpublished || Published_checkbox (properties r)).

(** [new Date(a.properties.Date.date.start).getTime()] *)
Definition publishTime (a : PostProps) : res Z :=
  match Date_date (properties a) with
  | Some date => Ok (getTime (start date))
  | None => Throw TypeError
  end.

(** The comparator handed to [sort]. *)
Definition byDateDescending (a b : PostProps) : res Z :=
  let* dateA := publishTime a in
  let* dateB := publishTime b in
  Ok (dateB - dateA).

(** [Array.prototype.sort] with a comparator: a stable sort.  [x] precedes
    every element of [sorted] in the array being sorted, so it is placed in
    front of the first element it does not have to follow. *)
Fixpoint insert {A : Type} (compare : A -> A -> res Z) (x : A) (sorted : list A)
  : res (list A) :=
  match sorted with
  | [] => Ok [x]
  | y :: sorted' =>
      let* c := compare x y in
      if 0 <? c then
        let* rest := insert compare x sorted' in Ok (y :: rest)
      else Ok (x :: y :: sorted')
  end.

Fixpoint sort {A : Type} (compare : A -> A -> res Z) (l : list A) : res (list A) :=
  match l with
  | [] => Ok []
  | x :: l' => let* sorted := sort compare l' in insert compare x sorted
  end.

(** [results.filter(...).sort(...)] *)
Definition filtered (includeUnpublished : bool) (results : list PostProps)
  : res (list PostProps) :=
  sort byDateDescending (List.filter (keep includeUnpublished) results).

(** Post [a] is not older than post [b]: [a] may stand directly in front of
    [b] in a list sorted by descending publish date. *)
Definition not_older (a b : PostProps) : Prop :=
  exists dateA dateB,
    publishTime a = Ok dateA /\ publishTime b = Ok dateB /\ dateB <= dateA.

(** Whether post [p] was published at time [t]. *)
Definition published_at (t : Z) (p : PostProps) : bool :=
  match publishTime p with
  | Ok t' => t' =? t
  | _ => false
  end.

Definition databaseKey (databaseId : string) (includeUnpublished : bool) : string :=
  "database:" ++ databaseId ++ ":" ++ (if includeUnpublished then "true" else "false").

Definition getDatabase (fuel : nat) (databaseId : string) (includeUnpublished : bool)
  (w : World) : res (list PostProps) * World :=
  let cacheKey := databaseKey databaseId includeUnpublished in
  let '(hit, w) := getCached cacheKey w in
  if cached_truthy hit then
    match hit with
    | CPosts posts => (Ok posts, w)
    | _ => (Unmodelled, w)
    end
  else
    let '(listing, w) := paginate fuel databaseId None [] w in
    match listing with
    | Ok results =>
        match filtered includeUnpublished results with
        | Ok posts => (Ok posts, setCache cacheKey (CPosts posts) w)
        | Throw e => (Throw e, w)
        | Unmodelled => (Unmodelled, w)
        end
    | Throw e => (Throw e, w)
    | Unmodelled => (Unmodelled, w)
    end.

(** *** Single-item query (getPostBySlug) *)

(** The field check of getPostBySlug.  Its optional chaining guards against
    absent properties, which [PostProps] does not have. *)
Definition isValid (post : PostProps) : bool :=
  not_null (Date_date (properties post))
  && (0 <? length (Description_rich_text (properties post)))%nat
  && (0 <? length (Slug_rich_text (properties post)))%nat
  && (0 <? length (Page_title (properties post)))%nat
  && (0 <? length (Authors_people (properties post)))%nat.

Definition slugKey (databaseId slug : string) : string :=
  "post-by-slug:" ++ databaseId ++ ":" ++ slug.

Definition of_post (post : option PostProps) : cached :=
  match post with
  | Some p => CPost p
  | None => CNull
  end.

Definition getPostBySlug (databaseId slug : string) (w : World)
  : res (option PostProps) * World :=
  let cacheKey := slugKey databaseId slug in
  let '(hit, w) := getCached cacheKey w in
  match hit with
  | CPost post => (Ok (Some post), w)
  | CPosts _ | CBlocks _ => (Unmodelled, w)
  | CNull =>
      let reply := databases_query_by_slug service (length (requests w)) databaseId slug in
      let w := sent (DatabasesQueryBySlug databaseId slug) w in
      match reply with
      | Ok response =>
          let post := head (results response) in
          match post with
          | Some p =>
              if negb (isValid p) then (Ok None, setCache cacheKey CNull w)
              else (Ok post, setCache cacheKey (of_post post) w)
          | None => (Ok post, setCache cacheKey (of_post post) w)
          end
      | Throw e => (Throw e, w)
      | Unmodelled => (Unmodelled, w)
      end
  end.

(** *** Page and block listing (getPage, getBlocks) *)

Definition getPage (pageId : string) (w : World) : res PostProps * World :=
  let cacheKey := "page:" ++ pageId in
  let '(hit, w) := getCached cacheKey w in
  if cached_truthy hit then
    match hit with
    | CPost page => (Ok page, w)
    | _ => (Unmodelled, w)
    end
  else
    let reply := pages_retrieve service (length (requests w)) pageId in
    let w := sent (PagesRetrieve pageId) w in
    match reply with
    | Ok page => (Ok page, setCache cacheKey (CPost page) w)
    | Throw e => (Throw e, w)
    | Unmodelled => (Unmodelled, w)
    end.

Fixpoint paginateBlocks (fuel : nat) (blockId : string) (startCursor : option string)
  (acc : list value) (w : World) : res (list value) * World :=
  match fuel with
  | O => (Unmodelled, w)
  | S fuel' =>
      let reply := blocks_children_list service (length (requests w)) blockId startCursor in
      let w := sent (BlocksChildrenList blockId startCursor) w in
      match reply with
      | Ok response =>
          let acc := (acc ++ block_results response)%list in
          match block_next_cursor response with
          | Some cursor => paginateBlocks fuel' blockId (Some cursor) acc w
          | None => (Ok acc, w)
          end
      | Throw e => (Throw e, w)
      | Unmodelled => (Unmodelled, w)
      end
  end.

Definition getBlocks (fuel : nat) (blockId : string) (w : World)
  : res (list value) * World :=
  let cacheKey := "blocks:" ++ blockId in
  let '(hit, w) := getCached cacheKey w in
  if cached_truthy hit then
    match hit with
    | CBlocks blocks => (Ok blocks, w)
    | _ => (Unmodelled, w)
    end
  else
    let '(listing, w) := paginateBlocks fuel blockId None [] w in
    match listing with
    | Ok blocks => (Ok blocks, setCache cacheKey (CBlocks blocks) w)
    | Throw e => (Throw e, w)
    | Unmodelled => (Unmodelled, w)
    end.

End Queries.

(** *** Static paths (mapDatabaseToPaths) *)

Record Params : Type := { slug : string }.
Record Path : Type := { params : Params }.

(** [item.properties.Slug.rich_text[0].plain_text]: reading [plain_text] off
    a missing first span throws. *)
Definition firstSlug (item : PostProps) : res string :=
  match Slug_rich_text (properties item) !! 0%nat with
  | Some span => Ok (plain_text span)
  | None => Throw TypeError
  end.

Definition mapDatabaseToPaths (database : list PostProps) : res (list Path) :=
  mapM (fun item =>
          let* s := firstSlug item in Ok {| params := {| slug := s |} |})
       database.

(** [getBlogLink] *)
Definition getBlogLink (slug : string) : string := "/p/" ++ slug.

End Posts.

(** ** List grouping (groupListBlocks) *)
Module Grouping.
Import Js.
Local Open Scope list_scope.

(** Modelled from the spec: the [ListBlock] type of [@lib/types], which is not
    part of the sources at hand: the id of the first member, the kind tag
    ["ul"] or ["ol"], and the member blocks in order. *)
Inductive ListKind : Type := ul | ol.

Record ListBlock : Type := {
  id : value;
  type : ListKind;
  items : list value;
}.

(** An element of the result array, [Block | ListBlock]. *)
Inductive entry : Type :=
| Plain (b : value)
| Grouped (l : ListBlock).

(** [currList.items.push(b)] *)
Definition push (b : value) (l : ListBlock) : ListBlock :=
  {| id := id l; type := type l; items := items l ++ [b] |}.

(** One turn of the [for ... of] loop on the pair
    [(updatedBlocks, currList)]. *)
Definition step (state : list entry * option ListBlock) (b : value)
  : res (list entry * option ListBlock) :=
  let '(updatedBlocks, currList) := state in
  let* btype := get b "type" in
  if is_str btype "bulleted_list_item" || is_str btype "numbered_list_item" then
    let* currList :=
      match currList with
      | None =>
          let* bid := get b "id" in
          Ok {| id := bid;
                type := if is_str btype "bulleted_list_item" then ul else ol;
                items := [] |}
      | Some l => Ok l
      end in
    Ok (updatedBlocks, Some (push b currList))
  else
    let updatedBlocks :=
      match currList with
      | Some l => updatedBlocks ++ [Grouped l]
      | None => updatedBlocks
      end in
    Ok (updatedBlocks ++ [Plain b], None).

Fixpoint loop (state : list entry * option ListBlock) (blocks : list value)
  : res (list entry * option ListBlock) :=
  match blocks with
  | [] => Ok state
  | b :: rest => let* state := step state b in loop state rest
  end.

(** [blocks ?? []] makes a null or undefined argument an empty sequence. *)
Definition groupListBlocks (blocks : option (list value)) : res (list entry) :=
  let* state := loop ([], None) (default [] blocks) in
  let '(updatedBlocks, currList) := state in
  match currList with
  | Some l => Ok (updatedBlocks ++ [Grouped l])
  | None => Ok updatedBlocks
  end.

(** The blocks of a result in reading order, each list replaced by its
    members. *)
Definition members (e : entry) : list value :=
  match e with
  | Plain b => [b]
  | Grouped l => items l
  end.

Definition flatten (entries : list entry) : list value :=
  concat (map members entries).

End Grouping.

(** ** Sample data

    A small collection, a service that lists it in two pages, and a few block
    trees, used to run the definitions above. *)
Module Samples.
Import Js Posts.

Definition span (s : string) : RichText := {| plain_text := s |}.

Definition alice : value := VObj [("name", VStr "Alice")].

Definition post (id : string) (date : option string) (slug : string)
  (published : bool) : PostProps :=
  {| Posts.id := id;
     properties :=
       {| Date_date := option_map (fun s => {| start := s |}) date;
          Description_rich_text := [span "About"];
          Slug_rich_text := [span slug];
          Page_title := [span "Title"];
          Authors_people := [alice];
          Published_checkbox := published |} |}.

Definition spring : PostProps := post "p1" (Some "2021-03-01") "spring" true.
Definition summer : PostProps := post "p2" (Some "2021-07-01") "summer" false.
Definition spring_too : PostProps := post "p3" (Some "2021-03-01") "spring-too" true.
Definition winter : PostProps := post "p4" (Some "2021-12-01") "winter" true.
(** A record without a publish date: it fails the field check. *)
Definition draft : PostProps := post "p5" None "draft" true.

(** Milliseconds since the epoch for the dates above. *)
Definition sampleTime (s : string) : Z :=
  if String.eqb s "2021-03-01" then 1614556800000
  else if String.eqb s "2021-07-01" then 1625097600000
  else if String.eqb s "2021-12-01" then 1638316800000
  else 0.

(** The collection ["blog"] is listed in two pages; a query by slug answers
    with the record of that slug, whatever its state. *)
Definition blog : Service :=
  {| databases_query := fun _ databaseId startCursor =>
       if String.eqb databaseId "blog" then
         match startCursor with
         | None => Ok {| results := [spring; draft; summer];
                         next_cursor := Some "page-2" |}
         | Some _ => Ok {| results := [spring_too; winter]; next_cursor := None |}
         end
       else Throw (VObj [("code", VStr "object_not_found"); ("status", VNum 404)]);
     databases_query_by_slug := fun _ databaseId slug =>
       Ok {| results :=
               List.filter
                 (fun p => match firstSlug p with
                           | Ok s => String.eqb s slug
                           | _ => false
                           end)
                 [spring; draft; summer; spring_too; winter];
             next_cursor := None |};
     pages_retrieve := fun _ pageId =>
       if String.eqb pageId "p1" then Ok spring
       else Throw (VObj [("code", VStr "object_not_found"); ("status", VNum 404)]);
     blocks_children_list := fun _ blockId startCursor =>
       match startCursor with
       | None => Ok {| block_results := [VObj [("id", VStr "b1")]];
                       block_next_cursor := Some "more" |}
       | Some _ => Ok {| block_results := [VObj [("id", VStr "b2")]];
                         block_next_cursor := None |}
       end;
     took := fun _ => 120 |}.

(** A process that has just started. *)
Definition boot : World := {| cache := ∅; clock := 1700000000000; requests := [] |}.

(** *** Blocks *)

Definition bold_annotations : value :=
  VObj [("bold", VBool true); ("italic", VBool false);
        ("strikethrough", VBool false); ("underline", VBool false);
        ("code", VBool false); ("color", VStr "default")].

(** A rich-text span as the service sends it, linked or not. *)
Definition rich (content : string) (annotations : value) (url : option string)
  : value :=
  VObj [("type", VStr "text");
        ("text", VObj [("content", VStr content);
                       ("link", match url with
                                | Some u => VObj [("url", VStr u)]
                                | None => VNull
                                end)]);
        ("annotations", annotations);
        ("plain_text", VStr content);
        ("href", match url with Some u => VStr u | None => VNull end)].

(** A styled, linked span followed by a plain one. *)
Definition spans : list value :=
  [rich "Read" bold_annotations (Some "https://example.com");
   rich " this" Minimizer.plain_annotations None].

(** A block as the service sends it: bookkeeping fields, the type tag and the
    type-specific payload under the key named by the tag. *)
Definition block (id type : string) (has_children : bool)
  (payload : list (string * value)) : value :=
  VObj [("object", VStr "block"); ("id", VStr id);
        ("created_time", VStr "2021-03-01T10:00:00.000Z");
        ("has_children", VBool has_children); ("archived", VBool false);
        ("type", VStr type); (type, VObj payload)].

Definition text_block (id type content : string) : value :=
  block id type false
    [("text", VArr [rich content Minimizer.plain_annotations None])].

Definition p1 : value := text_block "p1" "paragraph" "Monday".
Definition bullet1 : value := text_block "b1" "bulleted_list_item" "milk".
Definition bullet2 : value := text_block "b2" "bulleted_list_item" "eggs".
Definition number1 : value := text_block "n1" "numbered_list_item" "first".
Definition p2 : value := text_block "p2" "paragraph" "Tuesday".

(** A quote with styled, linked text and two nested list items. *)
Definition quote : value :=
  block "q1" "quote" true
    [("text", VArr spans); ("children", VArr [bullet1; number1])].

(** *** Errors and operations *)

(** The client's error for a reply it cannot parse, with and without the
    numeric [status] field. *)
Definition unavailable : value :=
  VObj [("code", VStr "notionhq_client_response_error"); ("status", VNum 503);
        ("message", VStr "Request to Notion API failed with status: 503")].

Definition unavailable_by_message : value :=
  VObj [("code", VStr "notionhq_client_response_error");
        ("message", VStr "Request to Notion API failed with status: 503")].

Definition bad_request : value :=
  VObj [("code", VStr "notionhq_client_response_error"); ("status", VNum 400);
        ("message", VStr "Request to Notion API failed with status: 400")].

(** The client's error for a reply with HTTP status 429 and a JSON body. *)
Definition rate_limited : value :=
  VObj [("code", VStr "rate_limited"); ("status", VNum 429);
        ("message", VStr "You have been rate limited.")].

(** An operation that fails [n] times with [e] and then yields [v]. *)
Definition failing (n : nat) (e v : value) : nat -> Retry.settled :=
  fun k => if (k <? n)%nat then Retry.Rejects e else Retry.Resolves v.

(** A source of random numbers stuck at one half. *)
Definition half : nat -> Q := fun _ => 1 # 2.

End Samples.

(** * Properties

    ** Facts about the minimizer *)
Module MinimizerFacts.
Import Js Minimizer.

Arguments jsor : simpl never.
Arguments jsand : simpl never.

Lemma bind_ok {A B} (m : res A) (f : A -> res B) b :
  bind m f = Ok b -> exists a, m = Ok a /\ f a = Ok b.
Proof. destruct m; simpl; intros H; try discriminate. eauto. Qed.

Ltac innermost m :=
  lazymatch m with
  | bind ?m' _ => innermost m'
  | _ => constr:(m)
  end.

Ltac inv_bind H :=
  match type of H with
  | bind ?m _ = Ok _ =>
      let m' := innermost m in
      let E := fresh "E" in
      destruct m' eqn:E; simpl in H; [ | discriminate H | discriminate H ]
  end.

Tactic Notation "bind_inv" hyp(H) "as" ident(x) ident(E) :=
  match type of H with
  | bind ?m _ = Ok _ =>
      let m' := innermost m in
      destruct m' as [x| |] eqn:E; simpl in H; [ | discriminate H | discriminate H ]
  end.

Tactic Notation "bind_inv0" hyp(H) "as" ident(x) ident(E) :=
  match type of H with
  | bind ?m _ = Ok _ =>
      let m' := innermost m in
      destruct m' as [x| |] eqn:E; cbn [bind] in H;
      [ | discriminate H | discriminate H ]
  end.

Lemma jsor_idem a d v : jsor a (Ok d) = Ok v -> jsor (Ok v) (Ok d) = Ok v.
Proof.
  unfold jsor. intros H. inv_bind H. simpl.
  destruct (truthy a0) eqn:T.
  - injection H as <-. now rewrite T.
  - injection H as <-. now destruct (truthy d).
Qed.

Lemma jsor_default a d v :
  jsor a (Ok d) = Ok v -> truthy v = false -> v = d.
Proof.
  unfold jsor. intros H T. inv_bind H.
  destruct (truthy a0) eqn:T'; injection H as <-; congruence.
Qed.


Lemma jsor_chain x a rest rest' :
  jsor x (Ok (VBool false)) = Ok a ->
  (forall hf, rest = Ok hf -> truthy hf = true ->
     exists hf', rest' = Ok hf' /\ truthy hf' = true) ->
  forall hf, jsor x rest = Ok hf -> truthy hf = true ->
     exists hf', jsor (Ok a) rest' = Ok hf' /\ truthy hf' = true.
Proof.
  unfold jsor. intros Ha Hrest hf Hf T.
  inv_bind Ha. simpl in Hf. simpl.
  destruct (truthy a0) eqn:Ta.
  - injection Ha as <-. rewrite Ta. eauto.
  - injection Ha as <-. simpl. eauto.
Qed.

Lemma color_last c col :
  jsor c (Ok (VStr "default")) = Ok col ->
  forall hf,
    jsand c (bind c (fun color => Ok (VBool (negb (is_str color "default"))))) = Ok hf ->
    truthy hf = true ->
    exists hf',
      jsand (Ok col)
        (bind (Ok col) (fun color => Ok (VBool (negb (is_str color "default")))))
      = Ok hf' /\ truthy hf' = true.
Proof.
  unfold jsor, jsand. intros Hc hf Hf T.
  inv_bind Hc. simpl in Hf. simpl.
  destruct (truthy a) eqn:Ta.
  - injection Hc as <-. rewrite Ta. eauto.
  - injection Hf as <-. congruence.
Qed.

Lemma hasFormatting_literal an hf lit :
  hasFormatting an = Ok hf -> truthy hf = true ->
  annotations_literal an = Ok lit ->
  (exists hf', hasFormatting lit = Ok hf' /\ truthy hf' = true)
  /\ annotations_literal lit = Ok lit.
Proof.
  unfold hasFormatting, annotations_literal. intros Hf T Hl.
  repeat inv_bind Hl. injection Hl as <-.
  split.
  2:{ simpl. rewrite (jsor_idem _ _ _ E), (jsor_idem _ _ _ E0), (jsor_idem _ _ _ E1),
      (jsor_idem _ _ _ E2), (jsor_idem _ _ _ E3), (jsor_idem _ _ _ E4). reflexivity. }
  unfold jsand at 1 in Hf. simpl in Hf.
  destruct (truthy an) eqn:Ta; [ | injection Hf as <-; congruence ].
  unfold jsand at 1. simpl.
  revert hf Hf T.
  do 5 (eapply jsor_chain; [ eassumption | ]).
  eapply color_last; eassumption.
Qed.


Ltac inv_binds :=
  repeat match goal with
  | H : bind ?m _ = Ok _ |- _ =>
      let E := fresh "E" in
      destruct m eqn:E; simpl in H; [ | discriminate H | discriminate H ]
  end.

Lemma text_literal_idem tx keep lit :
  jsor (get tx "content") (get tx "link") = Ok keep -> truthy keep = true ->
  text_literal tx = Ok lit ->
  truthy lit = true
  /\ (exists keep', jsor (get lit "content") (get lit "link") = Ok keep'
                   /\ truthy keep' = true)
  /\ text_literal lit = Ok lit.
Proof.
  unfold text_literal. intros Hk T Hl.
  inv_bind Hl. inv_bind Hl.
  pose proof (jsor_idem _ _ _ E) as Hc.
  unfold jsor in Hk, E. inv_bind Hk. simpl in E.
  destruct (truthy a0) eqn:Tl.
  - inv_binds. injection Hl as <-. 
    match goal with H : Ok _ = Ok _ |- _ => injection H as <- end.
    split; [ reflexivity | ]. split.
    + simpl. unfold jsor. simpl. destruct (truthy a) eqn:?; eauto.
    + simpl. rewrite Hc. reflexivity.
  - simpl in Hl. injection Hl as <-.
    destruct (truthy a1) eqn:T1.
    + injection E as <-.
      split; [ reflexivity | ]. split.
      * simpl. unfold jsor. simpl. rewrite T1. eauto.
      * simpl. rewrite Hc. reflexivity.
    + injection Hk as <-. congruence.
Qed.


Arguments hasFormatting : simpl never.
Arguments annotations_literal : simpl never.
Arguments text_literal : simpl never.


Lemma minimizeSpan_idem text out :
  minimizeSpan text = Ok out -> minimizeSpan out = Ok out.
Proof.
  unfold minimizeSpan at 1. intros H.
  bind_inv H as pt Ept. bind_inv H as an Ean. bind_inv H as tx Etx.
  bind_inv H as hr Ehr. bind_inv H as hf Ehf. bind_inv H as ty Ety.
  pose proof (jsor_idem _ _ _ Ety) as Hty.
  destruct (truthy hf) eqn:Thf; simpl in H.
  - bind_inv H as lit Elit.
    destruct (hasFormatting_literal _ _ _ Ehf Thf Elit) as [(hf' & Hhf & Thf') Hlit].
    destruct (truthy tx) eqn:Ttx; simpl in H.
    + bind_inv H as keep Ekeep. destruct (truthy keep) eqn:Tk; simpl in H.
      * bind_inv H as tl Etl.
        destruct (text_literal_idem _ _ _ Ekeep Tk Etl) as (Tlit & (k' & Hk & Tk') & Hl).
        destruct (truthy hr) eqn:Th; simpl in H; injection H as <-;
          unfold minimizeSpan; simpl;
          rewrite Hhf, Hty; simpl; rewrite Thf', Hlit; simpl;
          rewrite Tlit, Hk; simpl; rewrite Tk', Hl; simpl; rewrite ?Th; reflexivity.
      * destruct (truthy hr) eqn:Th; simpl in H; injection H as <-;
          unfold minimizeSpan; simpl;
          rewrite Hhf, Hty; simpl; rewrite Thf', Hlit; simpl; rewrite ?Th; reflexivity.
    + destruct (truthy hr) eqn:Th; simpl in H; injection H as <-;
          unfold minimizeSpan; simpl;
          rewrite Hhf, Hty; simpl; rewrite Thf', Hlit; simpl; rewrite ?Th; reflexivity.
  - destruct (truthy tx) eqn:Ttx; simpl in H.
    + bind_inv H as keep Ekeep. destruct (truthy keep) eqn:Tk; simpl in H.
      * bind_inv H as tl Etl.
        destruct (text_literal_idem _ _ _ Ekeep Tk Etl) as (Tlit & (k' & Hk & Tk') & Hl).
        destruct (truthy hr) eqn:Th; simpl in H; injection H as <-;
          unfold minimizeSpan; simpl; rewrite Hty; simpl;
          rewrite Tlit, Hk; simpl; rewrite Tk', Hl; simpl; rewrite ?Th; reflexivity.
      * destruct (truthy hr) eqn:Th; simpl in H; injection H as <-;
          unfold minimizeSpan; simpl; rewrite Hty; simpl; rewrite ?Th; reflexivity.
    + destruct (truthy hr) eqn:Th; simpl in H; injection H as <-;
          unfold minimizeSpan; simpl; rewrite Hty; simpl; rewrite ?Th; reflexivity.
Qed.

Lemma mapM_idem2 (f g : value -> res value) l l' :
  (forall x y, f x = Ok y -> g y = Ok y) ->
  mapM f l = Ok l' -> mapM g l' = Ok l'.
Proof.
  intros Hfg. revert l'. induction l as [|x l IH]; simpl; intros l' H.
  - injection H as <-. reflexivity.
  - bind_inv H as y Ey. bind_inv H as ys Eys. injection H as <-.
    simpl. rewrite (Hfg _ _ Ey). simpl. rewrite (IH _ eq_refl). reflexivity.
Qed.

Lemma mapM_length {A B} (f : A -> res B) l l' :
  mapM f l = Ok l' -> length l' = length l.
Proof.
  revert l'. induction l as [|x l IH]; simpl; intros l' H.
  - injection H as <-. reflexivity.
  - bind_inv H as y Ey. bind_inv H as ys Eys. injection H as <-.
    simpl. f_equal. auto.
Qed.

Lemma mapM_ext_in {A B} (f g : A -> res B) l :
  (forall x, In x l -> f x = g x) -> mapM f l = mapM g l.
Proof.
  induction l as [|x l IH]; simpl; intros H; [ reflexivity | ].
  rewrite (H x) by auto. rewrite IH by auto. reflexivity.
Qed.

Lemma minimizeRichText_idem r r' :
  minimizeRichText r = Ok r' -> minimizeRichText r' = Ok r'.
Proof.
  destruct r; simpl; intros H; try (injection H as <-; reflexivity).
  bind_inv H as items' E. injection H as <-. simpl.
  rewrite (mapM_idem2 _ _ _ _ minimizeSpan_idem E). reflexivity.
Qed.

Lemma minimizeRichText_truthy r r' :
  minimizeRichText r = Ok r' -> truthy r' = truthy r.
Proof.
  destruct r; simpl; intros H; try (injection H as <-; reflexivity).
  bind_inv H as items' E. injection H as <-. reflexivity.
Qed.

Lemma nonempty_arr items : nonempty (VArr items) = Ok (negb (Nat.eqb (length items) 0)).
Proof. destruct items; reflexivity. Qed.

Lemma minimizeRichText_nonempty r r' :
  minimizeRichText r = Ok r' -> nonempty r = Ok true -> nonempty r' = Ok true.
Proof.
  destruct r; simpl; intros H; try (injection H as <-; auto).
  bind_inv H as items' E. injection H as <-.
  rewrite !nonempty_arr, (mapM_length _ _ _ E). auto.
Qed.

Lemma js_map_idem2 (f g : value -> res value) v v' :
  (forall x y, f x = Ok y -> g y = Ok y) ->
  js_map f v = Ok v' -> js_map g v' = Ok v'.
Proof.
  intros Hfg. destruct v; simpl; intros H; try discriminate.
  bind_inv H as items' E. injection H as <-. simpl.
  rewrite (mapM_idem2 _ _ _ _ Hfg E). reflexivity.
Qed.

Section Again.
Variables f g : value -> res value.
Hypothesis Hfg : forall x y, f x = Ok y -> g y = Ok y.

Lemma js_map_truthy (h : value -> res value) v v' : js_map h v = Ok v' -> truthy v' = true.
Proof.
  destruct v; simpl; intros H; try discriminate.
  bind_inv H as items' E. injection H as <-. reflexivity.
Qed.

Lemma spread_children_shape bd ch :
  spread_children f bd = Ok ch ->
  ch = [] \/ exists cs, ch = [("children", cs)] /\ nonempty cs = Ok true
                        /\ js_map g cs = Ok cs.
Proof.
  unfold spread_children. intros H.
  bind_inv H as c Ec. bind_inv H as some Es. destruct some.
  - bind_inv H as c' Ec'. injection H as <-. right. exists c'.
    split; [ reflexivity | ]. split; [ | eapply js_map_idem2; eauto ].
    destruct c; simpl in Ec'; try discriminate.
    bind_inv Ec' as items' E. injection Ec' as <-.
    rewrite nonempty_arr in *. now rewrite (mapM_length _ _ _ E).
  - injection H as <-. now left.
Qed.

Lemma spread_children_none o :
  get o "children" = Ok VUndef -> spread_children g o = Ok [].
Proof. unfold spread_children. now intros ->. Qed.

Lemma spread_children_again o cs :
  get o "children" = Ok cs -> nonempty cs = Ok true -> js_map g cs = Ok cs ->
  spread_children g o = Ok [("children", cs)].
Proof. unfold spread_children. intros -> H1 H2. simpl. rewrite H1. simpl. now rewrite H2. Qed.

Lemma spread_caption_shape bd ch :
  spread_caption bd = Ok ch ->
  ch = [] \/ exists c, ch = [("caption", c)] /\ nonempty c = Ok true
                       /\ minimizeRichText c = Ok c.
Proof.
  unfold spread_caption. intros H.
  bind_inv H as c Ec. bind_inv H as some Es. destruct some.
  - bind_inv H as c' Ec'. injection H as <-. right. exists c'.
    split; [ reflexivity | ]. split.
    + eapply minimizeRichText_nonempty; eauto.
    + eapply minimizeRichText_idem; eauto.
  - injection H as <-. now left.
Qed.

Lemma spread_caption_none o :
  get o "caption" = Ok VUndef -> spread_caption o = Ok [].
Proof. unfold spread_caption. now intros ->. Qed.

Lemma spread_caption_again o c :
  get o "caption" = Ok c -> nonempty c = Ok true -> minimizeRichText c = Ok c ->
  spread_caption o = Ok [("caption", c)].
Proof. unfold spread_caption. intros -> H1 H2. simpl. rewrite H1. simpl. now rewrite H2. Qed.

Arguments spread_children : simpl never.
Arguments spread_caption : simpl never.
Arguments minimizeRichText : simpl never.
Arguments js_map : simpl never.
Arguments nonempty : simpl never.

Lemma text_payload_idem bd p : text_payload f bd = Ok p -> text_payload g p = Ok p.
Proof.
  unfold text_payload. intros H.
  bind_inv H as t Et. bind_inv H as t' Et'. bind_inv H as ch Ech. injection H as <-.
  simpl. rewrite (minimizeRichText_idem _ _ Et'). simpl.
  destruct (spread_children_shape _ _ Ech) as [-> | (cs & -> & Hne & Hcs)].
  - rewrite spread_children_none by reflexivity. reflexivity.
  - erewrite spread_children_again by (try reflexivity; eassumption). reflexivity.
Qed.


Ltac children_again Hch :=
  let cs := fresh "cs" in
  destruct (spread_children_shape _ _ Hch) as [-> | (cs & -> & ? & ?)];
  [ rewrite spread_children_none by reflexivity
  | erewrite spread_children_again by (try reflexivity; eassumption) ];
  simpl; try reflexivity.

Ltac caption_again Hch :=
  let c := fresh "c" in
  destruct (spread_caption_shape _ _ Hch) as [-> | (c & -> & ? & ?)];
  [ rewrite spread_caption_none by reflexivity
  | erewrite spread_caption_again by (try reflexivity; eassumption) ];
  simpl; try reflexivity.

Lemma payload_idem bt bd p : payload f bt bd = Ok p -> payload g bt p = Ok p.
Proof.
  unfold payload. intros H.
  destruct (is_str bt "paragraph" || is_str bt "heading_1" || is_str bt "heading_2"
            || is_str bt "heading_3"); [ now apply text_payload_idem with bd | ].
  destruct (is_str bt "quote"); [ now apply text_payload_idem with bd | ].
  destruct (is_str bt "bulleted_list_item" || is_str bt "numbered_list_item");
    [ now apply text_payload_idem with bd | ].
  destruct (is_str bt "callout").
  { bind_inv H as t Et. bind_inv H as t' Et'. bind_inv H as icon Ei.
    destruct (truthy icon) eqn:Ti.
    - bind_inv H as emoji Ee. bind_inv H as itype Eit. bind_inv H as ch Ech.
      injection H as <-. simpl.
      rewrite (minimizeRichText_idem _ _ Et'). simpl. children_again Ech.
    - simpl in H. bind_inv H as ch Ech. injection H as <-. simpl.
      rewrite (minimizeRichText_idem _ _ Et'). simpl. children_again Ech. }
  destruct (is_str bt "image" || is_str bt "video").
  { bind_inv H as kind Ek. destruct (is_str kind "external") eqn:Tk.
    - bind_inv H as ext Ex. bind_inv H as url Eu. bind_inv H as ch Ech.
      injection H as <-. simpl. rewrite Tk. simpl. caption_again Ech.
    - bind_inv H as file Ef. bind_inv H as url Eu. bind_inv H as ex Eex.
      bind_inv H as ch Ech.
      injection H as <-. simpl. rewrite Tk. simpl. caption_again Ech. }
  destruct (is_str bt "code").
  { bind_inv H as t Et. destruct (truthy t) eqn:Tt.
    - bind_inv H as t' Et'. bind_inv H as lang El. bind_inv H as ch Ech.
      injection H as <-. simpl.
      rewrite (minimizeRichText_truthy _ _ Et'), Tt, (minimizeRichText_idem _ _ Et').
      simpl. rewrite (jsor_idem _ _ _ El). simpl. caption_again Ech.
    - simpl in H. bind_inv H as lang El. bind_inv H as ch Ech.
      injection H as <-. simpl.
      rewrite (jsor_idem _ _ _ El). simpl. caption_again Ech. }
  destruct (is_str bt "divider").
  { injection H as <-. reflexivity. }
  destruct (is_str bt "embed").
  { bind_inv H as url Eu. bind_inv H as ch Ech. injection H as <-. simpl.
    caption_again Ech. }
  destruct (is_str bt "table").
  { bind_inv H as hc Ec. bind_inv H as hr Er. bind_inv H as ch Ech.
    injection H as <-. simpl.
    rewrite (jsor_idem _ _ _ Ec). simpl. rewrite (jsor_idem _ _ _ Er). simpl.
    children_again Ech. }
  destruct (is_str bt "table_row").
  { bind_inv H as cells Ec. destruct (truthy cells) eqn:Tc.
    - bind_inv H as cells' Ec'. injection H as <-. simpl.
      rewrite (js_map_truthy _ _ _ Ec').
      rewrite (js_map_idem2 _ _ _ _ minimizeRichText_idem Ec'). reflexivity.
    - simpl in H. injection H as <-. reflexivity. }
  destruct (is_str bt "column_list").
  { bind_inv H as c Ec. destruct (truthy c) eqn:Tc.
    - bind_inv H as c' Ec'. injection H as <-. simpl.
      rewrite (js_map_truthy _ _ _ Ec').
      rewrite (js_map_idem2 _ _ _ _ Hfg Ec'). reflexivity.
    - simpl in H. injection H as <-. reflexivity. }
  destruct (is_str bt "column").
  { bind_inv H as col Ecol. destruct (truthy col) eqn:Tcol.
    - bind_inv H as col' Ecol'. injection H as <-. simpl.
      rewrite (js_map_truthy _ _ _ Ecol').
      rewrite (js_map_idem2 _ _ _ _ Hfg Ecol'). reflexivity.
    - bind_inv H as c Ec. destruct (truthy c) eqn:Tc.
      + bind_inv H as c' Ec'. injection H as <-. simpl.
        rewrite (js_map_truthy _ _ _ Ec').
        rewrite (js_map_idem2 _ _ _ _ Hfg Ec'). reflexivity.
      + injection H as <-. reflexivity. }
  bind_inv H as ht Eht. destruct (truthy ht) eqn:Tht.
  - pose proof H as Hp. unfold text_payload in Hp.
    bind_inv Hp as t Et. bind_inv Hp as t' Et'. bind_inv Hp as ch Ech.
    injection Hp as <-.
    assert (Ht : truthy t = true).
    { unfold jsand in Eht. simpl in Eht. destruct (truthy bd) eqn:Tbd.
      - injection Eht as <-. assumption.
      - injection Eht as <-. congruence. }
    unfold jsand. simpl. rewrite (minimizeRichText_truthy _ _ Et'), Ht.
    now apply text_payload_idem with bd.
  - destruct (truthy bd) eqn:Tbd.
    + injection H as <-. rewrite Eht. simpl. rewrite Tht, Tbd. reflexivity.
    + injection H as <-. reflexivity.
Qed.

End Again.

Lemma to_key_str v k :
  to_key v = Ok k -> k = "id" \/ k = "type" \/ k = "has_children" -> v = VStr k.
Proof.
  destruct v as [| |[]| | | |]; simpl; intros H; try discriminate;
    injection H as <-; intros [H|[H|H]]; try discriminate H; reflexivity.
Qed.

Lemma body_reread id ty hc key p :
  to_key ty = Ok key -> (key = "type" -> p = ty) ->
  let base := [("id", id); ("type", ty); ("has_children", hc)] in
  exists id2 hc2,
    get (VObj (put key p base)) "id" = Ok id2
    /\ get (VObj (put key p base)) "type" = Ok ty
    /\ get (VObj (put key p base)) "has_children" = Ok hc2
    /\ get (VObj (put key p base)) key = Ok p
    /\ put key p [("id", id2); ("type", ty); ("has_children", hc2)] = put key p base.
Proof.
  intros Hk Hty base. subst base.
  destruct (String.eqb_spec "id" key) as [<-|N1].
  { exists p, hc. repeat split; reflexivity. }
  destruct (String.eqb_spec "type" key) as [<-|N2].
  { rewrite (Hty eq_refl). exists id, hc. repeat split; reflexivity. }
  destruct (String.eqb_spec "has_children" key) as [<-|N3].
  { exists id, p. repeat split; reflexivity. }
  apply String.eqb_neq in N1, N2, N3.
  assert (Hput : forall a b c,
             put key p [("id", a); ("type", b); ("has_children", c)]
             = [("id", a); ("type", b); ("has_children", c); (key, p)]).
  { intros. unfold put. now rewrite N1, N2, N3. }
  exists id, hc. rewrite !Hput. repeat split; try reflexivity.
  unfold get, own. now rewrite N1, N2, N3, String.eqb_refl.
Qed.

Lemma body_idem2 (f g : value -> res value) block out :
  (forall x y, f x = Ok y -> g y = Ok y) ->
  minimizeBlock_body f block = Ok out -> minimizeBlock_body g out = Ok out.
Proof.
  intros Hfg H. unfold minimizeBlock_body in H.
  bind_inv0 H as id Eid. bind_inv0 H as ty Ety. bind_inv0 H as hc Ehc.
  bind_inv0 H as key Ekey. bind_inv0 H as bd Ebd. bind_inv0 H as p Ep.
  unfold set in H. destruct (String.eqb key "__proto__") eqn:Eproto; [ discriminate | ].
  cbn [bind] in H.
  assert (out = VObj (put key p [("id", id); ("type", ty); ("has_children", hc)]))
    as -> by congruence.
  clear H.
  assert (Hty : key = "type" -> p = ty).
  { intros ->. pose proof (to_key_str _ _ Ekey (or_intror (or_introl eq_refl))) as ->.
    rewrite Ety in Ebd. injection Ebd as <-. vm_compute in Ep. congruence. }
  destruct (body_reread id ty hc key p Ekey Hty) as (id2 & hc2 & R1 & R2 & R3 & R4 & R5).
  unfold minimizeBlock_body. rewrite R1, R2, R3. cbn [bind]. rewrite Ekey. cbn [bind].
  rewrite R4. cbn [bind]. rewrite (payload_idem f g Hfg _ _ _ Ep). cbn [bind].
  unfold set. rewrite Eproto. cbn [bind]. now rewrite R5.
Qed.

Lemma depth_own k fields w :
  own k fields = Some w -> (depth w < depth (VObj fields))%nat.
Proof.
  simpl. induction fields as [|[k' v] fields IH]; simpl; intros H; [ discriminate | ].
  destruct (String.eqb k' k).
  - injection H as <-. lia.
  - specialize (IH H). lia.
Qed.

Lemma depth_get v k w : get v k = Ok w -> (depth w <= pred (depth v))%nat.
Proof.
  destruct v; simpl; intros H; try discriminate;
    try (destruct (own k fields) eqn:E;
         [ injection H as <-; apply depth_own in E; simpl in E; lia | ]);
    repeat match type of H with
      | context [if ?c then _ else _] => destruct c
      end;
    inversion H; subst; simpl; lia.
Qed.

Lemma depth_item x items : In x items -> (depth x < depth (VArr items))%nat.
Proof.
  simpl. induction items as [|y items IH]; simpl; intros H; [ contradiction | ].
  destruct H as [->|H]; [ lia | ]. specialize (IH H). lia.
Qed.

Lemma bind_ext {A B : Type} (m : res A) (k k' : A -> res B) :
  (forall a, m = Ok a -> k a = k' a) -> bind m k = bind m k'.
Proof. intros H. destruct m; simpl; auto. Qed.

Section Ext.
Variables f g : value -> res value.

Lemma js_map_ext v :
  (forall c, (depth c < depth v)%nat -> f c = g c) -> js_map f v = js_map g v.
Proof.
  intros H. destruct v; try reflexivity. unfold js_map.
  rewrite (mapM_ext_in f g items); [ reflexivity | ].
  intros x Hx. apply H. now apply depth_item.
Qed.

Lemma js_map_get_ext bd k c :
  (forall c, (depth c + 2 <= depth bd)%nat -> f c = g c) ->
  get bd k = Ok c -> js_map f c = js_map g c.
Proof.
  intros H E. apply js_map_ext. intros x Hx. apply H.
  apply depth_get in E. lia.
Qed.

Lemma spread_children_ext bd :
  (forall c, (depth c + 2 <= depth bd)%nat -> f c = g c) ->
  spread_children f bd = spread_children g bd.
Proof.
  intros H. unfold spread_children.
  destruct (get bd "children") as [c| |] eqn:E; try reflexivity. cbn [bind].
  now rewrite (js_map_get_ext _ _ _ H E).
Qed.

Lemma payload_ext bt bd :
  (forall c, (depth c + 2 <= depth bd)%nat -> f c = g c) ->
  payload f bt bd = payload g bt bd.
Proof.
  intros H. unfold payload, text_payload.
  rewrite (spread_children_ext bd H).
  repeat match goal with
    | |- (if ?c then _ else _) = (if ?c then _ else _) =>
        destruct c; [ try reflexivity | ]
    end; try reflexivity.
  - destruct (get bd "children") as [c| |] eqn:E; try reflexivity. cbn [bind].
    now rewrite (js_map_get_ext _ _ _ H E).
  - destruct (get bd "column") as [c| |] eqn:E; try reflexivity. cbn [bind].
    rewrite (js_map_get_ext _ _ _ H E).
    destruct (truthy c); [ reflexivity | ].
    destruct (get bd "children") as [c'| |] eqn:E'; try reflexivity. cbn [bind].
    now rewrite (js_map_get_ext _ _ _ H E').
Qed.

Lemma minimizeBlock_body_ext block :
  (forall c, (depth c < depth block)%nat -> f c = g c) ->
  minimizeBlock_body f block = minimizeBlock_body g block.
Proof.
  intros H. unfold minimizeBlock_body.
  apply bind_ext; intros id _. apply bind_ext; intros ty _.
  apply bind_ext; intros hc _. apply bind_ext; intros key _.
  apply bind_ext; intros bd E.
  rewrite (payload_ext ty bd); [ reflexivity | ].
  intros c Hc. apply H. apply depth_get in E. lia.
Qed.

End Ext.

Lemma minimizeBlock_at_stable n : forall m x,
  (depth x < n)%nat -> (depth x < m)%nat ->
  minimizeBlock_at n x = minimizeBlock_at m x.
Proof.
  induction n as [|n IH]; intros m x Hn Hm; [ lia | ].
  destruct m as [|m]; [ lia | ]. simpl.
  apply minimizeBlock_body_ext. intros c Hc. apply IH; lia.
Qed.

Lemma minimizeBlock_eq block :
  minimizeBlock block = minimizeBlock_body minimizeBlock block.
Proof.
  unfold minimizeBlock at 1. simpl.
  apply minimizeBlock_body_ext. intros c Hc.
  unfold minimizeBlock. apply minimizeBlock_at_stable; lia.
Qed.

Lemma minimizeBlock_at_idem n : forall x y,
  minimizeBlock_at n x = Ok y -> minimizeBlock y = Ok y.
Proof.
  induction n as [|n IH]; simpl; intros x y H; [ discriminate | ].
  rewrite minimizeBlock_eq. eapply body_idem2; eauto.
Qed.


Lemma jsor_cases x rest hf :
  jsor x rest = Ok hf ->
  exists b, x = Ok b /\ (truthy b = true /\ hf = b \/ truthy b = false /\ rest = Ok hf).
Proof.
  unfold jsor. intros H. bind_inv H as b E. exists b. split; [ reflexivity | ].
  destruct (truthy b); [ left | right ]; split; congruence.
Qed.

Lemma styled_falsy an : truthy an = false -> styled an = false.
Proof. destruct an as [| |[]| |[]| |]; simpl; try discriminate; try reflexivity. Qed.

Lemma jsor_flag v k rest hf r :
  (rest = Ok hf -> truthy hf = r) ->
  jsor (get v k) rest = Ok hf -> truthy hf = flag v k || r.
Proof.
  intros Hr H. apply jsor_cases in H.
  destruct H as (b & E & [[T ->] | [T H]]); unfold flag; rewrite E, T; simpl; auto.
Qed.

Lemma hasFormatting_styled an hf :
  hasFormatting an = Ok hf -> truthy hf = styled an.
Proof.
  unfold hasFormatting, jsand at 1. cbn [bind]. destruct (truthy an) eqn:Ta.
  2:{ intros H. injection H as <-. now rewrite styled_falsy. }
  unfold styled. rewrite <- !orb_assoc.
  do 5 apply jsor_flag.
  unfold jsand. destruct (get an "color") as [c| |]; cbn [bind]; try discriminate.
  destruct (truthy c) eqn:Tc; intros H; injection H as <-; simpl; auto.
Qed.

Lemma keep_flags tx keep :
  jsor (get tx "content") (get tx "link") = Ok keep ->
  truthy keep = flag tx "content" || flag tx "link".
Proof.
  apply jsor_flag. intros E. unfold flag. now rewrite E.
Qed.

Lemma text_literal_spec tx lit :
  text_literal tx = Ok lit ->
  get lit "content" = jsor (get tx "content") (Ok (VStr ""))
  /\ has_key lit "link" = flag tx "link".
Proof.
  unfold text_literal. intros H.
  bind_inv0 H as content Ec. bind_inv0 H as link El. unfold flag. rewrite El.
  destruct (truthy link) eqn:T.
  - bind_inv0 H as url Eu. injection H as <-. now split.
  - cbn [bind] in H. injection H as <-. now split.
Qed.

Lemma annotations_literal_obj an lit :
  annotations_literal an = Ok lit -> exists fields, lit = VObj fields.
Proof.
  unfold annotations_literal. intros H.
  repeat (let x := fresh "x" in let E := fresh "E" in bind_inv0 H as x E).
  injection H as <-. eauto.
Qed.

Lemma minimizeSpan_spec text out :
  minimizeSpan text = Ok out -> span_minimized text out.
Proof.
  unfold minimizeSpan. intros H.
  bind_inv0 H as pt Ept. bind_inv0 H as an Ean. bind_inv0 H as tx Etx.
  bind_inv0 H as hr Ehr. bind_inv0 H as hf Ehf. bind_inv0 H as ty Ety.
  exists an, tx, hr. rewrite (hasFormatting_styled _ _ Ehf) in H.
  unfold has_content_or_link.
  destruct (styled an).
  - bind_inv0 H as al Eal. unfold set in H. cbn [String.eqb Ascii.eqb Bool.eqb bind] in H.
    destruct (truthy tx) eqn:Ttx.
    + bind_inv0 H as keep Ek. rewrite <- (keep_flags _ _ Ek).
      destruct (truthy keep) eqn:Tk.
      * bind_inv0 H as tl Etl. cbn [String.eqb Ascii.eqb Bool.eqb bind put] in H.
        destruct (text_literal_spec _ _ Etl) as [L1 L2].
        destruct (truthy hr) eqn:Thr; cbn [String.eqb Ascii.eqb Bool.eqb bind put] in H;
          injection H as <-; repeat split; try reflexivity; try discriminate; eauto.
      * cbn [String.eqb Ascii.eqb Bool.eqb bind put] in H.
        destruct (truthy hr) eqn:Thr; cbn [String.eqb Ascii.eqb Bool.eqb bind put] in H;
          injection H as <-; repeat split; try reflexivity; try discriminate; eauto.
    + cbn [String.eqb Ascii.eqb Bool.eqb bind put] in H.
      destruct (truthy hr) eqn:Thr; cbn [String.eqb Ascii.eqb Bool.eqb bind put] in H;
        injection H as <-; repeat split; try reflexivity; try discriminate; eauto.
  - cbn [bind] in H.
    destruct (truthy tx) eqn:Ttx.
    + bind_inv0 H as keep Ek. rewrite <- (keep_flags _ _ Ek).
      destruct (truthy keep) eqn:Tk.
      * bind_inv0 H as tl Etl. unfold set in H. cbn [String.eqb Ascii.eqb Bool.eqb bind put] in H.
        destruct (text_literal_spec _ _ Etl) as [L1 L2].
        destruct (truthy hr) eqn:Thr; cbn [String.eqb Ascii.eqb Bool.eqb bind put] in H;
          injection H as <-; repeat split; try reflexivity; try discriminate; eauto.
      * unfold set in H. cbn [String.eqb Ascii.eqb Bool.eqb bind put] in H.
        destruct (truthy hr) eqn:Thr; cbn [String.eqb Ascii.eqb Bool.eqb bind put] in H;
          injection H as <-; repeat split; try reflexivity; try discriminate; eauto.
    + unfold set in H. cbn [String.eqb Ascii.eqb Bool.eqb bind put] in H.
      destruct (truthy hr) eqn:Thr; cbn [String.eqb Ascii.eqb Bool.eqb bind put] in H;
        injection H as <-; repeat split; try reflexivity; try discriminate; eauto.
Qed.

Lemma mapM_Forall2 {A B : Type} (f : A -> res B) (P : A -> B -> Prop) l : forall l',
  (forall x y, f x = Ok y -> P x y) -> mapM f l = Ok l' -> Forall2 P l l'.
Proof.
  induction l as [|x l IH]; intros l' HP H; simpl in H.
  - injection H as <-. constructor.
  - bind_inv0 H as y Ey. bind_inv0 H as ys Eys. injection H as <-.
    constructor; auto.
Qed.

(** *** The claims about the minimizer *)

(** C2: minimizeBlock is idempotent.  Whenever it returns a tree for a block,
    running it on that tree (children and rich-text spans included) returns
    the very same tree. *)
Theorem minimizeBlock_idempotent (x y : value) :
  minimizeBlock x = Ok y -> minimizeBlock y = Ok y.
Proof. apply minimizeBlock_at_idem. Qed.

Lemma minimizeBlock_idempotent_witness :
  exists y, minimizeBlock Samples.quote = Ok y /\ minimizeBlock y = Ok y.
Proof.
  eexists. split; [ vm_compute; reflexivity | ].
  apply (minimizeBlock_idempotent Samples.quote). vm_compute. reflexivity.
Defined.

(** C7: minimizeRichText maps an array of spans to an array of the same
    length whose every element is its span minimized: plain text and type tag
    kept, the annotations present exactly when a style flag is set or the
    colour is not the default, the text sub-object present exactly when it has
    content or a link (with a link key exactly when there is a link), href
    present exactly when it is set. *)
Theorem minimizeRichText_each_span (items : list value) (out : value) :
  minimizeRichText (VArr items) = Ok out ->
  exists items', out = VArr items' /\ Forall2 span_minimized items items'.
Proof.
  unfold minimizeRichText. intros H. bind_inv0 H as items' E. injection H as <-.
  exists items'. split; [ reflexivity | ].
  eapply mapM_Forall2; [ | exact E ]. apply minimizeSpan_spec.
Qed.

Lemma minimizeRichText_each_span_witness :
  styled plain_annotations = false
  /\ exists items',
       minimizeRichText (VArr Samples.spans) = Ok (VArr items')
       /\ Forall2 span_minimized Samples.spans items'.
Proof.
  split; [ reflexivity | ].
  eexists. split; [ vm_compute; reflexivity | ].
  destruct (minimizeRichText_each_span Samples.spans _ eq_refl)
    as (items' & Hout & Hall).
  injection Hout as <-. exact Hall.
Defined.

End MinimizerFacts.

(** ** Facts about the queries and the cache *)
Module PostsFacts.
Import Js Posts.
Local Open Scope Z_scope.

Section QueryFacts.
Variable isDev : bool.
Variable service : Service.
Variable getTime : string -> Z.


Lemma keep_isValid includeUnpublished r :
  keep includeUnpublished r = true -> isValid r = true.
Proof. unfold keep, isValid. intros H. now apply andb_true_iff in H. Qed.

Lemma keep_published_only r : keep false r = true -> keep true r = true.
Proof.
  unfold keep. intros H. apply andb_true_iff in H as [H _].
  now rewrite H.
Qed.

Lemma isValid_dated p : isValid p = true -> exists t, (publishTime getTime) p = Ok t.
Proof.
  unfold isValid, Posts.publishTime. destruct (Date_date (properties p)); [ eauto | discriminate ].
Qed.

Lemma byDate_dated a b :
  isValid a = true -> isValid b = true ->
  exists ta tb, (publishTime getTime) a = Ok ta /\ (publishTime getTime) b = Ok tb
                /\ (byDateDescending getTime) a b = Ok (tb - ta).
Proof.
  intros [ta Ha]%isValid_dated [tb Hb]%isValid_dated. exists ta, tb.
  unfold Posts.byDateDescending. now rewrite Ha, Hb.
Qed.

Lemma byDate_inv a b c :
  (byDateDescending getTime) a b = Ok c ->
  exists ta tb, (publishTime getTime) a = Ok ta /\ (publishTime getTime) b = Ok tb /\ c = tb - ta.
Proof.
  unfold Posts.byDateDescending. intros H.
  destruct ((publishTime getTime) a) as [ta| |]; try discriminate.
  destruct ((publishTime getTime) b) as [tb| |]; try discriminate.
  simpl in H. injection H as <-. eauto.
Qed.

Lemma published_at_eq t p tp :
  (publishTime getTime) p = Ok tp -> (published_at getTime) t p = (tp =? t).
Proof. unfold Posts.published_at. now intros ->. Qed.

(** *** The insertion step of the sort *)

Lemma insert_total x l :
  isValid x = true -> Forall (fun p => isValid p = true) l ->
  exists l', insert (byDateDescending getTime) x l = Ok l'.
Proof.
  intros Hx. induction 1 as [|y l Hy Hl [l' IH]]; simpl; [ eauto | ].
  destruct (byDate_dated x y Hx Hy) as (ta & tb & _ & _ & ->). simpl.
  destruct (0 <? tb - ta); [ | eauto ]. rewrite IH. simpl. eauto.
Qed.

Lemma insert_Permutation {A : Type} (compare : A -> A -> res Z) x l : forall l',
  insert compare x l = Ok l' -> Permutation (x :: l) l'.
Proof.
  induction l as [|y l IH]; simpl; intros l' H.
  - injection H as <-. reflexivity.
  - destruct (compare x y) as [c| |]; try discriminate. simpl in H.
    destruct (0 <? c).
    + destruct (insert compare x l) as [rest| |]; try discriminate.
      simpl in H. injection H as <-. rewrite perm_swap. constructor. now apply IH.
    + injection H as <-. reflexivity.
Qed.

Lemma insert_published_at t x l : forall l',
  insert (byDateDescending getTime) x l = Ok l' ->
  List.filter ((published_at getTime) t) l' = List.filter ((published_at getTime) t) (x :: l).
Proof.
  induction l as [|y l IH]; simpl; intros l' H.
  - injection H as <-. reflexivity.
  - destruct ((byDateDescending getTime) x y) as [c| |] eqn:Ec; try discriminate. simpl in H.
    destruct (byDate_inv _ _ _ Ec) as (ta & tb & Ha & Hb & ->).
    destruct (0 <? tb - ta) eqn:Hlt.
    + destruct (insert (byDateDescending getTime) x l) as [rest| |]; try discriminate.
      simpl in H. injection H as <-. simpl. rewrite (IH rest eq_refl). simpl.
      rewrite (published_at_eq t _ _ Ha), (published_at_eq t _ _ Hb).
      apply Z.ltb_lt in Hlt.
      destruct (ta =? t) eqn:E1; destruct (tb =? t) eqn:E2; try reflexivity.
      apply Z.eqb_eq in E1, E2. lia.
    + injection H as <-. reflexivity.
Qed.

Lemma insert_HdRel x l : forall l' z,
  insert (byDateDescending getTime) x l = Ok l' ->
  (not_older getTime) z x -> HdRel (not_older getTime) z l -> HdRel (not_older getTime) z l'.
Proof.
  destruct l as [|y l]; simpl; intros l' z H Hx Hl.
  - injection H as <-. now constructor.
  - destruct ((byDateDescending getTime) x y) as [c| |]; try discriminate. simpl in H.
    destruct (0 <? c).
    + destruct (insert (byDateDescending getTime) x l) as [rest| |]; try discriminate.
      simpl in H. injection H as <-. constructor. now inversion Hl.
    + injection H as <-. now constructor.
Qed.

Lemma insert_Sorted x l : forall l',
  Sorted (not_older getTime) l -> insert (byDateDescending getTime) x l = Ok l' -> Sorted (not_older getTime) l'.
Proof.
  induction l as [|y l IH]; simpl; intros l' Hs H.
  - injection H as <-. repeat constructor.
  - destruct ((byDateDescending getTime) x y) as [c| |] eqn:Ec; try discriminate. simpl in H.
    destruct (byDate_inv _ _ _ Ec) as (ta & tb & Ha & Hb & ->).
    inversion Hs as [|? ? Hs' Hhd]; subst.
    destruct (0 <? tb - ta) eqn:Hlt.
    + destruct (insert (byDateDescending getTime) x l) as [rest| |] eqn:Ei; try discriminate.
      simpl in H. injection H as <-. constructor; [ now apply IH | ].
      apply (insert_HdRel x l); auto.
      exists tb, ta. apply Z.ltb_lt in Hlt. repeat split; auto. lia.
    + injection H as <-. constructor; [ assumption | ]. constructor.
      exists ta, tb. apply Z.ltb_ge in Hlt. repeat split; auto. lia.
Qed.

(** *** The sort *)

Lemma sort_Permutation {A : Type} (compare : A -> A -> res Z) l : forall l',
  sort compare l = Ok l' -> Permutation l l'.
Proof.
  induction l as [|x l IH]; simpl; intros l' H.
  - injection H as <-. reflexivity.
  - destruct (sort compare l) as [sorted| |]; try discriminate. simpl in H.
    apply insert_Permutation in H. rewrite <- H. constructor. now apply IH.
Qed.

Lemma sort_total l :
  Forall (fun p => isValid p = true) l -> exists l', sort (byDateDescending getTime) l = Ok l'.
Proof.
  induction 1 as [|x l Hx Hl [sorted IH]]; simpl; [ eauto | ].
  rewrite IH. simpl. apply insert_total; [ assumption | ].
  apply sort_Permutation in IH. now rewrite <- IH.
Qed.

Lemma sort_Sorted l : forall l',
  sort (byDateDescending getTime) l = Ok l' -> Sorted (not_older getTime) l'.
Proof.
  induction l as [|x l IH]; simpl; intros l' H.
  - injection H as <-. constructor.
  - destruct (sort (byDateDescending getTime) l) as [sorted| |]; try discriminate. simpl in H.
    eapply insert_Sorted; [ apply IH; reflexivity | exact H ].
Qed.

Lemma sort_published_at t l : forall l',
  sort (byDateDescending getTime) l = Ok l' ->
  List.filter ((published_at getTime) t) l' = List.filter ((published_at getTime) t) l.
Proof.
  induction l as [|x l IH]; simpl; intros l' H.
  - injection H as <-. reflexivity.
  - destruct (sort (byDateDescending getTime) l) as [sorted| |]; try discriminate. simpl in H.
    rewrite (insert_published_at t _ _ _ H). simpl. now rewrite (IH sorted eq_refl).
Qed.

Lemma Sorted_adjacent {A : Type} (R : A -> A -> Prop) (l : list A) :
  Sorted R l -> forall i a b, l !! i = Some a -> l !! S i = Some b -> R a b.
Proof.
  induction 1 as [|x l Hs IH Hhd]; intros i a b Ha Hb; [ discriminate | ].
  destruct i as [|i]; simpl in *.
  - injection Ha as <-. destruct l; [ discriminate | ].
    simpl in Hb. injection Hb as <-. now inversion Hhd.
  - eauto.
Qed.

(** *** (filtered getTime) *)

Lemma filter_keep_valid includeUnpublished results :
  Forall (fun p => isValid p = true) (List.filter (keep includeUnpublished) results).
Proof.
  apply List.Forall_forall. intros p [_ Hp]%filter_In. eapply keep_isValid; eauto.
Qed.

Lemma filtered_total includeUnpublished results :
  exists posts, (filtered getTime) includeUnpublished results = Ok posts.
Proof. apply sort_total, filter_keep_valid. Qed.

Lemma filtered_In includeUnpublished results posts p :
  (filtered getTime) includeUnpublished results = Ok posts ->
  In p posts <-> In p results /\ keep includeUnpublished p = true.
Proof.
  intros H. apply sort_Permutation in H.
  rewrite <- filter_In. split; apply Permutation_in; [ symmetry | ]; assumption.
Qed.

End QueryFacts.

Section CacheFacts.
Variable isDev : bool.
Variable service : Service.
Variable getTime : string -> Z.

Lemma getCached_miss key w :
  cache w !! key = None -> getCached isDev key w = (CNull, w).
Proof. unfold getCached. intros ->. now destruct (negb isDev). Qed.

Lemma getDatabase_fresh fuel databaseId includeUnpublished records w w' :
  cache w !! databaseKey databaseId includeUnpublished = None ->
  paginate service fuel databaseId None [] w = (Ok records, w') ->
  exists posts,
    filtered getTime includeUnpublished records = Ok posts
    /\ getDatabase isDev service getTime fuel databaseId includeUnpublished w
       = (Ok posts,
          setCache isDev (databaseKey databaseId includeUnpublished) (CPosts posts) w').
Proof.
  intros Hmiss Hlist.
  destruct (filtered_total getTime includeUnpublished records) as [posts Hposts].
  exists posts. split; [ assumption | ].
  unfold getDatabase. rewrite (getCached_miss _ _ Hmiss). cbn [cached_truthy].
  rewrite Hlist. now rewrite Hposts.
Qed.

(** Every request goes to the end of the log: a query only ever extends it. *)
Lemma paginate_requests fuel databaseId : forall startCursor acc w,
  exists more,
    requests (snd (paginate service fuel databaseId startCursor acc w))
    = (requests w ++ more)%list.
Proof.
  induction fuel as [|fuel IH]; intros startCursor acc w; simpl.
  - exists []. now rewrite app_nil_r.
  - destruct (databases_query service _ _ _) as [response| |]; simpl;
      try (eexists; reflexivity).
    destruct (next_cursor response) as [cursor|]; simpl; [ | eexists; reflexivity ].
    destruct (IH (Some cursor) (acc ++ results response)%list
                 (sent service (DatabasesQuery databaseId startCursor) w)) as [more ->].
    simpl. rewrite <- app_assoc. eexists; reflexivity.
Qed.

Lemma paginate_first fuel databaseId startCursor acc w :
  exists more,
    requests (snd (paginate service (S fuel) databaseId startCursor acc w))
    = (requests w ++ DatabasesQuery databaseId startCursor :: more)%list.
Proof.
  simpl.
  destruct (databases_query service _ _ _) as [response| |]; simpl;
    try (exists []; reflexivity).
  destruct (next_cursor response) as [cursor|]; simpl; [ | exists []; reflexivity ].
  destruct (paginate_requests fuel databaseId (Some cursor)
              (acc ++ results response)%list
              (sent service (DatabasesQuery databaseId startCursor) w)) as [more ->].
  simpl. rewrite <- app_assoc. eexists; reflexivity.
Qed.

Lemma paginateBlocks_requests fuel blockId : forall startCursor acc w,
  exists more,
    requests (snd (paginateBlocks service fuel blockId startCursor acc w))
    = (requests w ++ more)%list.
Proof.
  induction fuel as [|fuel IH]; intros startCursor acc w; simpl.
  - exists []. now rewrite app_nil_r.
  - destruct (blocks_children_list service _ _ _) as [response| |]; simpl;
      try (eexists; reflexivity).
    destruct (block_next_cursor response) as [cursor|]; simpl; [ | eexists; reflexivity ].
    destruct (IH (Some cursor) (acc ++ block_results response)%list
                 (sent service (BlocksChildrenList blockId startCursor) w)) as [more ->].
    simpl. rewrite <- app_assoc. eexists; reflexivity.
Qed.

Lemma paginateBlocks_first fuel blockId startCursor acc w :
  exists more,
    requests (snd (paginateBlocks service (S fuel) blockId startCursor acc w))
    = (requests w ++ BlocksChildrenList blockId startCursor :: more)%list.
Proof.
  simpl.
  destruct (blocks_children_list service _ _ _) as [response| |]; simpl;
    try (exists []; reflexivity).
  destruct (block_next_cursor response) as [cursor|]; simpl; [ | exists []; reflexivity ].
  destruct (paginateBlocks_requests fuel blockId (Some cursor)
              (acc ++ block_results response)%list
              (sent service (BlocksChildrenList blockId startCursor) w)) as [more ->].
  simpl. rewrite <- app_assoc. eexists; reflexivity.
Qed.

End CacheFacts.

Section Uncached.
Variable service : Service.
Variable getTime : string -> Z.

Lemma getPage_uncached pageId w :
  requests (snd (getPage false service pageId w))
  = (requests w ++ [PagesRetrieve pageId])%list.
Proof.
  unfold getPage, getCached, setCache. simpl.
  now destruct (pages_retrieve service _ _).
Qed.

Lemma getPostBySlug_uncached databaseId slug w :
  requests (snd (getPostBySlug false service databaseId slug w))
  = (requests w ++ [DatabasesQueryBySlug databaseId slug])%list.
Proof.
  unfold getPostBySlug, getCached, setCache. simpl.
  destruct (databases_query_by_slug service _ _ _) as [response| |]; try reflexivity.
  destruct (head (results response)) as [p|]; try reflexivity.
  now destruct (isValid p).
Qed.

Lemma getDatabase_uncached fuel databaseId includeUnpublished w :
  exists more,
    requests (snd (getDatabase false service getTime (S fuel) databaseId
                     includeUnpublished w))
    = (requests w ++ DatabasesQuery databaseId None :: more)%list.
Proof.
  destruct (paginate_first service fuel databaseId None [] w) as [more H].
  exists more. rewrite <- H. unfold getDatabase, getCached, setCache.
  cbn [negb cached_truthy].
  destruct (paginate service (S fuel) databaseId None [] w) as [[results| |] w'];
    try reflexivity.
  now destruct (filtered getTime includeUnpublished results).
Qed.

Lemma getBlocks_uncached fuel blockId w :
  exists more,
    requests (snd (getBlocks false service (S fuel) blockId w))
    = (requests w ++ BlocksChildrenList blockId None :: more)%list.
Proof.
  destruct (paginateBlocks_first service fuel blockId None [] w) as [more H].
  exists more. rewrite <- H. unfold getBlocks, getCached, setCache.
  cbn [negb cached_truthy].
  now destruct (paginateBlocks service (S fuel) blockId None [] w) as [[results| |] w'].
Qed.

End Uncached.

(** *** The claims about the queries *)

(** C4 (the code does otherwise): in development mode the service answers a
    query by slug with a record that fails the field check.  The first call
    returns null and stores an entry whose data is null; the second call, made
    well within the time to live, also returns null, but only after sending
    the same request again: the stored null is read back as a miss. *)
Theorem getPostBySlug_cached_null_is_fetched_again :
  let key := slugKey "blog" "draft" in
  let '(first, w1) := getPostBySlug true Samples.blog "blog" "draft" Samples.boot in
  let '(second, w2) := getPostBySlug true Samples.blog "blog" "draft" w1 in
  first = Ok None
  /\ cache w1 !! key = Some {| data := CNull; timestamp := clock w1 |}
  /\ requests w1 = [DatabasesQueryBySlug "blog" "draft"]
  /\ clock w2 - clock w1 <= CACHE_TTL_MS
  /\ second = Ok None
  /\ requests w2
     = [DatabasesQueryBySlug "blog" "draft"; DatabasesQueryBySlug "blog" "draft"].
Proof. vm_compute. repeat split; congruence. Qed.

(** C5: on a cache miss, for whatever records the listing of a collection
    yields, getDatabase returns a result for both settings of
    includeUnpublished; the posts returned without the unpublished ones are
    among those returned with them, and every returned post passes the
    five-field check (date, description, slug, title, authors). *)
Theorem getDatabase_published_subset_complete
  (isDev : bool) (service : Service) (getTime : string -> Z) (fuel : nat)
  (databaseId : string) (records : list PostProps) (w1 w1' w2 w2' : World) :
  cache w1 !! databaseKey databaseId false = None ->
  cache w2 !! databaseKey databaseId true = None ->
  paginate service fuel databaseId None [] w1 = (Ok records, w1') ->
  paginate service fuel databaseId None [] w2 = (Ok records, w2') ->
  exists publishedOnly everything,
    fst (getDatabase isDev service getTime fuel databaseId false w1) = Ok publishedOnly
    /\ fst (getDatabase isDev service getTime fuel databaseId true w2) = Ok everything
    /\ incl publishedOnly everything
    /\ Forall (fun p => isValid p = true) publishedOnly
    /\ Forall (fun p => isValid p = true) everything.
Proof.
  intros M1 M2 L1 L2.
  destruct (getDatabase_fresh isDev service getTime _ _ _ _ _ _ M1 L1) as (ps & F1 & G1).
  destruct (getDatabase_fresh isDev service getTime _ _ _ _ _ _ M2 L2) as (es & F2 & G2).
  exists ps, es. rewrite G1, G2. repeat split.
  - intros p Hp. apply (filtered_In getTime _ _ _ _ F1) in Hp as [Hin Hk].
    apply (filtered_In getTime _ _ _ _ F2). split; [ assumption | ].
    now apply keep_published_only.
  - apply List.Forall_forall. intros p Hp.
    apply (filtered_In getTime _ _ _ _ F1) in Hp as [_ Hk]. eapply keep_isValid; eauto.
  - apply List.Forall_forall. intros p Hp.
    apply (filtered_In getTime _ _ _ _ F2) in Hp as [_ Hk]. eapply keep_isValid; eauto.
Qed.

Lemma getDatabase_published_subset_complete_witness :
  exists publishedOnly everything,
    fst (getDatabase true Samples.blog Samples.sampleTime 5 "blog" false Samples.boot)
    = Ok publishedOnly
    /\ fst (getDatabase true Samples.blog Samples.sampleTime 5 "blog" true Samples.boot)
       = Ok everything
    /\ incl publishedOnly everything
    /\ Forall (fun p => isValid p = true) publishedOnly
    /\ Forall (fun p => isValid p = true) everything.
Proof.
  apply (getDatabase_published_subset_complete true Samples.blog Samples.sampleTime
           5 "blog"
           [Samples.spring; Samples.draft; Samples.summer; Samples.spring_too;
            Samples.winter]
           Samples.boot
           (snd (paginate Samples.blog 5 "blog" None [] Samples.boot))
           Samples.boot
           (snd (paginate Samples.blog 5 "blog" None [] Samples.boot)));
    vm_compute; reflexivity.
Defined.

(** C6: on a cache miss getDatabase returns the posts sorted by descending
    publish date: of two neighbours the first is not older than the second;
    and the posts of any one date come in the order they had in the filtered
    listing (the sort is stable). *)
Theorem getDatabase_sorted_stable
  (isDev : bool) (service : Service) (getTime : string -> Z) (fuel : nat)
  (databaseId : string) (includeUnpublished : bool) (records : list PostProps)
  (w w' : World) :
  cache w !! databaseKey databaseId includeUnpublished = None ->
  paginate service fuel databaseId None [] w = (Ok records, w') ->
  exists posts,
    fst (getDatabase isDev service getTime fuel databaseId includeUnpublished w)
    = Ok posts
    /\ (forall i a b,
          posts !! i = Some a -> posts !! S i = Some b -> not_older getTime a b)
    /\ (forall t,
          List.filter (published_at getTime t) posts
          = List.filter (published_at getTime t)
              (List.filter (keep includeUnpublished) records)).
Proof.
  intros M L.
  destruct (getDatabase_fresh isDev service getTime _ _ _ _ _ _ M L) as (posts & F & G).
  exists posts. rewrite G. split; [ reflexivity | ]. split.
  - apply Sorted_adjacent. eapply sort_Sorted. exact F.
  - intros t. eapply sort_published_at. exact F.
Qed.

Lemma getDatabase_sorted_stable_witness :
  exists posts,
    fst (getDatabase true Samples.blog Samples.sampleTime 5 "blog" true Samples.boot)
    = Ok posts
    /\ (forall i a b,
          posts !! i = Some a -> posts !! S i = Some b ->
          not_older Samples.sampleTime a b)
    /\ (forall t,
          List.filter (published_at Samples.sampleTime t) posts
          = List.filter (published_at Samples.sampleTime t)
              (List.filter (keep true)
                 [Samples.spring; Samples.draft; Samples.summer;
                  Samples.spring_too; Samples.winter])).
Proof.
  apply (getDatabase_sorted_stable true Samples.blog Samples.sampleTime 5 "blog" true
           [Samples.spring; Samples.draft; Samples.summer; Samples.spring_too;
            Samples.winter]
           Samples.boot
           (snd (paginate Samples.blog 5 "blog" None [] Samples.boot)));
    vm_compute; reflexivity.
Defined.

(** C8: outside development mode the cache does nothing: getCached answers
    null and leaves the world as it is, setCache leaves the world as it is,
    and of two calls in a row of one query with one key (getPage,
    getPostBySlug, getDatabase, getBlocks) each sends its request. *)
Theorem cache_is_noop_outside_development
  (service : Service) (getTime : string -> Z) (key : string) (d : cached) (w : World) :
  getCached false key w = (CNull, w)
  /\ setCache false key d w = w
  /\ (forall pageId,
        let w1 := snd (getPage false service pageId w) in
        let w2 := snd (getPage false service pageId w1) in
        requests w2 = (requests w ++ [PagesRetrieve pageId; PagesRetrieve pageId])%list)
  /\ (forall databaseId slug,
        let w1 := snd (getPostBySlug false service databaseId slug w) in
        let w2 := snd (getPostBySlug false service databaseId slug w1) in
        requests w2
        = (requests w ++ [DatabasesQueryBySlug databaseId slug;
                          DatabasesQueryBySlug databaseId slug])%list)
  /\ (forall fuel databaseId includeUnpublished,
        let w1 := snd (getDatabase false service getTime (S fuel) databaseId
                         includeUnpublished w) in
        let w2 := snd (getDatabase false service getTime (S fuel) databaseId
                         includeUnpublished w1) in
        exists more1 more2,
          requests w1 = (requests w ++ DatabasesQuery databaseId None :: more1)%list
          /\ requests w2 = (requests w1 ++ DatabasesQuery databaseId None :: more2)%list)
  /\ (forall fuel blockId,
        let w1 := snd (getBlocks false service (S fuel) blockId w) in
        let w2 := snd (getBlocks false service (S fuel) blockId w1) in
        exists more1 more2,
          requests w1 = (requests w ++ BlocksChildrenList blockId None :: more1)%list
          /\ requests w2 = (requests w1 ++ BlocksChildrenList blockId None :: more2)%list).
Proof.
  repeat split.
  - intros pageId w1 w2. subst w1 w2. rewrite !getPage_uncached.
    now rewrite <- app_assoc.
  - intros databaseId slug w1 w2. subst w1 w2. rewrite !getPostBySlug_uncached.
    now rewrite <- app_assoc.
  - intros fuel databaseId includeUnpublished w1 w2.
    destruct (getDatabase_uncached service getTime fuel databaseId includeUnpublished w)
      as [more1 H1].
    destruct (getDatabase_uncached service getTime fuel databaseId includeUnpublished w1)
      as [more2 H2].
    now exists more1, more2.
  - intros fuel blockId w1 w2.
    destruct (getBlocks_uncached service fuel blockId w) as [more1 H1].
    destruct (getBlocks_uncached service fuel blockId w1) as [more2 H2].
    now exists more1, more2.
Qed.

(** C10: on posts that pass the five-field check mapDatabaseToPaths does not
    fail: it returns one entry per post, in the same order, holding the plain
    text of the post's first slug span. *)
Theorem mapDatabaseToPaths_complete (database : list PostProps) :
  Forall (fun p => isValid p = true) database ->
  exists paths,
    mapDatabaseToPaths database = Ok paths
    /\ length paths = length database
    /\ forall i p, database !! i = Some p ->
         exists first,
           head (Slug_rich_text (properties p)) = Some first
           /\ paths !! i = Some {| params := {| slug := plain_text first |} |}.
Proof.
  induction 1 as [|p database Hp Hall (paths & Hpaths & Hlen & Hnth)].
  - exists []. repeat split. intros i p Hi. discriminate.
  - assert (exists first, head (Slug_rich_text (properties p)) = Some first)
      as [first Hfirst].
    { unfold isValid in Hp. destruct (Slug_rich_text (properties p)); [ | eauto ].
      simpl in Hp. rewrite !andb_false_r in Hp. discriminate. }
    exists ({| params := {| slug := plain_text first |} |} :: paths).
    unfold mapDatabaseToPaths in *. cbn [mapM]. unfold firstSlug at 1.
    rewrite <- head_lookup, Hfirst. cbn [bind]. rewrite Hpaths. cbn [bind].
    repeat split; [ simpl; now rewrite Hlen | ].
    intros [|i] q Hq; simpl in Hq.
    + injection Hq as <-. eauto.
    + now apply Hnth.
Qed.

Lemma mapDatabaseToPaths_complete_witness :
  exists paths,
    mapDatabaseToPaths [Samples.winter; Samples.spring] = Ok paths
    /\ length paths = length [Samples.winter; Samples.spring]
    /\ forall i p, [Samples.winter; Samples.spring] !! i = Some p ->
         exists first,
           head (Slug_rich_text (properties p)) = Some first
           /\ paths !! i = Some {| params := {| slug := plain_text first |} |}.
Proof.
  apply (mapDatabaseToPaths_complete [Samples.winter; Samples.spring]).
  repeat constructor.
Defined.

End PostsFacts.

(** ** Facts about the list grouping *)
Module GroupingFacts.
Import Js Grouping.
Local Open Scope list_scope.

Lemma flatten_app (u v : list entry) : flatten (u ++ v) = flatten u ++ flatten v.
Proof. unfold flatten. now rewrite map_app, concat_app. Qed.

(** Reading a property that is no member of [Object.prototype] off an object
    always yields a value. *)
Lemma get_object fields k :
  mem k object_proto = false -> exists v, get (VObj fields) k = Ok v.
Proof.
  intros H. unfold get. destruct (own k fields); [ eauto | ]. rewrite H. eauto.
Qed.

(** The blocks seen so far are the flushed entries followed by the items of
    the open list: every turn of the loop adds the current block at the end. *)
Lemma step_flatten u c b u' c' :
  step (u, c) b = Ok (u', c') ->
  flatten u' ++ from_option items [] c' = (flatten u ++ from_option items [] c) ++ [b].
Proof.
  unfold step. destruct (get b "type") as [btype| |]; try discriminate. cbn [bind].
  destruct (is_str btype "bulleted_list_item" || is_str btype "numbered_list_item").
  - destruct c as [l|]; cbn [bind].
    + intros H. injection H as <- <-. simpl. now rewrite app_assoc.
    + destruct (get b "id") as [bid| |]; try discriminate. cbn [bind].
      intros H. injection H as <- <-. simpl. now rewrite app_nil_r.
  - intros H. injection H as <- <-. destruct c as [l|]; simpl.
    + rewrite !flatten_app, app_nil_r. unfold flatten at 2 3. simpl.
      now rewrite !app_nil_r.
    + rewrite flatten_app, !app_nil_r. unfold flatten at 2. simpl. reflexivity.
Qed.

Lemma loop_flatten blocks : forall u c u' c',
  loop (u, c) blocks = Ok (u', c') ->
  flatten u' ++ from_option items [] c'
  = (flatten u ++ from_option items [] c) ++ blocks.
Proof.
  induction blocks as [|b blocks IH]; intros u c u' c' H; cbn [loop] in H.
  - injection H as <- <-. now rewrite app_nil_r.
  - destruct (step (u, c) b) as [[u1 c1]| |] eqn:E; try discriminate. cbn [bind] in H.
    rewrite (IH _ _ _ _ H), (step_flatten _ _ _ _ _ E), <- app_assoc. reflexivity.
Qed.

Lemma step_total state fields : exists state', step state (VObj fields) = Ok state'.
Proof.
  destruct state as [u c]. unfold step.
  destruct (get_object fields "type" eq_refl) as [btype ->]. cbn [bind].
  destruct (is_str btype "bulleted_list_item" || is_str btype "numbered_list_item");
    [ | eauto ].
  destruct c as [l|]; cbn [bind]; [ eauto | ].
  destruct (get_object fields "id" eq_refl) as [bid ->]. cbn [bind]. eauto.
Qed.

Lemma loop_total blocks : forall state,
  Forall (fun b => exists fields, b = VObj fields) blocks ->
  exists state', loop state blocks = Ok state'.
Proof.
  induction blocks as [|b blocks IH]; intros state Hall; cbn [loop]; [ eauto | ].
  inversion Hall as [|? ? [fields ->] Hrest]; subst.
  destruct (step_total state fields) as [state1 ->]. cbn [bind]. now apply IH.
Qed.

Lemma groupListBlocks_inv blocks out :
  groupListBlocks blocks = Ok out -> flatten out = default [] blocks.
Proof.
  unfold groupListBlocks.
  destruct (loop ([], None) (default [] blocks)) as [[u c]| |] eqn:E; try discriminate.
  cbn [bind]. apply loop_flatten in E. simpl in E. rewrite <- E.
  destruct c as [l|]; intros H; injection H as <-.
  - rewrite flatten_app. unfold flatten at 2. simpl. now rewrite app_nil_r.
  - simpl. now rewrite app_nil_r.
Qed.

(** *** The claims about the list grouping *)

(** C1 (the code does otherwise): on the sequence paragraph, two bulleted
    items, one numbered item, paragraph, groupListBlocks puts all three list
    items into a single list of kind ul, the kind of the first item: the
    change of kind does not start a new list. *)
Theorem groupListBlocks_merges_kinds :
  groupListBlocks
    (Some [Samples.p1; Samples.bullet1; Samples.bullet2; Samples.number1; Samples.p2])
  = Ok [Plain Samples.p1;
        Grouped {| id := VStr "b1"; type := ul;
                   items := [Samples.bullet1; Samples.bullet2; Samples.number1] |};
        Plain Samples.p2].
Proof. vm_compute. reflexivity. Qed.

(** C9: groupListBlocks loses and duplicates nothing.  On every sequence of
    block objects it returns a result, and reading that result in order, each
    list replaced by its items, gives back exactly the input sequence. *)
Theorem groupListBlocks_flatten (blocks : list value) :
  Forall (fun b => exists fields, b = VObj fields) blocks ->
  exists out, groupListBlocks (Some blocks) = Ok out /\ flatten out = blocks.
Proof.
  intros Hall. destruct (loop_total blocks ([], None) Hall) as [[u c] Hloop].
  assert (exists out, groupListBlocks (Some blocks) = Ok out) as [out Hout].
  { unfold groupListBlocks. simpl. rewrite Hloop. cbn [bind].
    destruct c; eauto. }
  exists out. split; [ assumption | ]. now apply groupListBlocks_inv in Hout.
Qed.

Lemma groupListBlocks_flatten_witness :
  exists out,
    groupListBlocks
      (Some [Samples.p1; Samples.bullet1; Samples.bullet2; Samples.number1; Samples.p2])
    = Ok out
    /\ flatten out
       = [Samples.p1; Samples.bullet1; Samples.bullet2; Samples.number1; Samples.p2].
Proof.
  apply (groupListBlocks_flatten
           [Samples.p1; Samples.bullet1; Samples.bullet2; Samples.number1; Samples.p2]).
  repeat constructor; eexists; reflexivity.
Defined.

End GroupingFacts.

(** ** Facts about the retry wrapper *)
Module RetryFacts.
Import Js Retry.

(** *** The claim about the retry wrapper *)

(** C3 (the code does otherwise): an error of the client's response-error
    kind that carries its status only in the message, here 503, has that
    status read as the string of digits, which equals none of the numbers 502,
    503, 504, 429: it is classified as not retryable, and an operation failing
    with it is invoked once and the error propagates.  A rate-limit error
    (status 429) under the service's own error code is not retryable either. *)
Theorem status_in_message_is_not_retried :
  status_from_message Samples.unavailable_by_message = Ok (VStr "503")
  /\ isRetryableError Samples.unavailable_by_message = Ok false
  /\ isRetryableError Samples.rate_limited = Ok false
  /\ withRetry (Samples.failing 2 Samples.unavailable_by_message (VStr "done"))
       Samples.half
     = {| result := Throw Samples.unavailable_by_message;
          invocations := 1; sleeps := [] |}.
Proof. vm_compute. repeat split; reflexivity. Qed.

End RetryFacts.
